(** * rule-manager.js: the session hook handler

    A shallow embedding of [rule-manager.js], the hook handler that
    decides, per session, whether a proposed tool call is allowed, and the
    properties of it that the specification states.

    Layout: JavaScript strings and the regular expressions of the source
    ([JsString], [RegExp]); the marker-file store, the process monad and the
    handler itself ([RuleManager]); then the properties. *)

From Stdlib Require Import NArith ZArith String Ascii.
From stdpp Require Import base option list gmap.

Local Open Scope N_scope.

(** ** JavaScript strings *)

Module JsString.

(** A JavaScript string is a sequence of UTF-16 code units. *)
Abbreviation code_unit := N.
Abbreviation jsstring := (list code_unit).

(** A literal of the source, written as a Rocq string (ASCII only). *)
Definition js (s : string) : jsstring :=
  N_of_ascii <$> list_ascii_of_string s.

(** [\s]: WhiteSpace and LineTerminator code points (ECMA-262, 22.2.2.9):
    TAB, LF, VT, FF, CR, SP, NBSP, U+1680, U+2000..U+200A, U+2028, U+2029,
    U+202F, U+205F, U+3000 and U+FEFF. *)
Definition is_space (c : code_unit) : bool :=
  ((9 <=? c) && (c <=? 13)) || (c =? 32) || (c =? 160) || (c =? 5760)
  || ((8192 <=? c) && (c <=? 8202)) || (c =? 8232) || (c =? 8233)
  || (c =? 8239) || (c =? 8287) || (c =? 12288) || (c =? 65279).

(** LineTerminator: LF, CR, U+2028, U+2029; [.] matches everything else. *)
Definition is_line_terminator (c : code_unit) : bool :=
  (c =? 10) || (c =? 13) || (c =? 8232) || (c =? 8233).

(** [\w]: the 63 word characters [A-Za-z0-9_]. *)
Definition is_word_char (c : code_unit) : bool :=
  ((97 <=? c) && (c <=? 122)) || ((65 <=? c) && (c <=? 90))
  || ((48 <=? c) && (c <=? 57)) || (c =? 95).

(** Canonicalize for the [i] flag without [u]: the code unit is upper-cased,
    except that a code unit of 128 or more is never mapped below 128.  The
    patterns of this program hold ASCII only, and for an ASCII pattern
    character [p] and any code unit [c] the canonical forms agree exactly
    when they agree under the ASCII mapping below (a non-ASCII [c] keeps a
    canonical form of 128 or more). *)
Definition canonicalize (c : code_unit) : code_unit :=
  if (97 <=? c) && (c <=? 122) then c - 32 else c.

(** The longest prefix of [s] made of whitespace is dropped. *)
Fixpoint skip_space (s : jsstring) : jsstring :=
  match s with
  | c :: t => if is_space c then skip_space t else s
  | [] => []
  end.

(** ToString of a value that is a string or [undefined]. *)
Definition undefined_text : jsstring := Eval vm_compute in js "undefined".

Definition ToString (v : option jsstring) : jsstring :=
  match v with
  | Some s => s
  | None => undefined_text
  end.

(** Truthiness of a value that is a string or [undefined]: only the
    non-empty strings are truthy. *)
Definition truthy (v : option jsstring) : bool :=
  match v with
  | Some (_ :: _) => true
  | _ => false
  end.

(** [a || b] on such values. *)
Definition or_else (a b : option jsstring) : option jsstring :=
  if truthy a then a else b.

End JsString.

(** ** Regular expressions: the fragment the source uses *)

Module RegExp.
Import JsString.

(** Character sets: a literal character, [\s] and [.]. *)
Inductive charset : Type :=
| Lit (c : code_unit)
| Space
| AnyChar.

(** Patterns.  Every quantifier of the source applies to a single character
    set, and all of them are greedy. *)
Inductive pattern : Type :=
| Str (w : jsstring)          (* a run of literal characters *)
| One (cs : charset)          (* one character of the set *)
| Star (cs : charset)         (* cs*  *)
| Plus (cs : charset)         (* cs+  *)
| Bol                         (* ^, no [m] flag *)
| Eol                         (* $, no [m] flag *)
| WordB                       (* \b *)
| Cat (p q : pattern)
| Alt (p q : pattern).

Record regexp : Type := RegExp { source : pattern; ignoreCase : bool }.

(** A position in the input: the code unit just before it, if any, and the
    rest of the input. *)
Definition cursor : Type := option code_unit * jsstring.

Section Matcher.
Variable ci : bool.

Definition same_char (p c : code_unit) : bool :=
  if ci then canonicalize p =? canonicalize c else p =? c.

Definition in_set (cs : charset) (c : code_unit) : bool :=
  match cs with
  | Lit p => same_char p c
  | Space => is_space c
  | AnyChar => negb (is_line_terminator c)
  end.

(** The literal run [w] read at the cursor. *)
Fixpoint eat (w : jsstring) (prev : option code_unit) (s : jsstring)
  : list cursor :=
  match w with
  | [] => [(prev, s)]
  | p :: w' =>
      match s with
      | c :: t => if same_char p c then eat w' (Some c) t else []
      | [] => []
      end
  end.

(** Every way of reading [cs*] at the cursor, the longest first: the
    order in which a backtracking matcher tries them. *)
Fixpoint star (cs : charset) (prev : option code_unit) (s : jsstring)
  : list cursor :=
  match s with
  | c :: t =>
      if in_set cs c then star cs (Some c) t ++ [(prev, s)] else [(prev, s)]
  | [] => [(prev, [])]
  end.

Definition word_left (prev : option code_unit) : bool :=
  match prev with Some c => is_word_char c | None => false end.

Definition word_right (s : jsstring) : bool :=
  match s with c :: _ => is_word_char c | [] => false end.

(** All the cursors at which a match of [p] started at [cur] can end, in
    the matcher's order of preference. *)
Fixpoint run (p : pattern) (cur : cursor) : list cursor :=
  match p with
  | Str w => eat w cur.1 cur.2
  | One cs =>
      match cur.2 with
      | c :: t => if in_set cs c then [(Some c, t)] else []
      | [] => []
      end
  | Star cs => star cs cur.1 cur.2
  | Plus cs =>
      match cur.2 with
      | c :: t => if in_set cs c then star cs (Some c) t else []
      | [] => []
      end
  | Bol => match cur.1 with None => [cur] | Some _ => [] end
  | Eol => match cur.2 with [] => [cur] | _ :: _ => [] end
  | WordB => if xorb (word_left cur.1) (word_right cur.2) then [cur] else []
  | Cat p q => run p cur ≫= run q
  | Alt p q => run p cur ++ run q cur
  end.

(** The search of RegExpBuiltinExec without the [g] and [y] flags: the
    match is tried at index 0, 1, ... and the first index with a match
    wins.  The result is the text before the match and the text after. *)
Fixpoint search (p : pattern) (before : jsstring) (prev : option code_unit)
    (s : jsstring) : option (jsstring * jsstring) :=
  match run p (prev, s) with
  | (_, rest) :: _ => Some (before, rest)
  | [] =>
      match s with
      | c :: t => search p (before ++ [c]) (Some c) t
      | [] => None
      end
  end.
End Matcher.

Definition exec (re : regexp) (s : jsstring) : option (jsstring * jsstring) :=
  search (ignoreCase re) (source re) [] None s.

(** [re.test(s)] *)
Definition test (re : regexp) (s : jsstring) : bool :=
  match exec re s with Some _ => true | None => false end.

(** [s.replace(re, by)] for a regular expression without the [g] flag and a
    replacement text without [$]: the first match is replaced. *)
Definition replace (s : jsstring) (re : regexp) (by_ : jsstring) : jsstring :=
  match exec re s with
  | Some (before, rest) => before ++ by_ ++ rest
  | None => s
  end.

End RegExp.

(** ** The hook handler *)

Module RuleManager.
Import JsString RegExp.

Local Open Scope Z_scope.

(** *** What lives outside the process *)

(** The JSON objects the handler prints: [{}], the question context
    [{"hookSpecificOutput":{"additionalContext":text}}] and
    [{"error":message}]. *)
Inductive json_out : Type :=
| EmptyObject
| AdditionalContext (text : jsstring)
| ErrorObject (message : jsstring).

(** The file system under the state directory: the marker files with their
    contents, the directories created, and the JSONL logs (one list of event
    labels per log file; time stamps and payloads are not modelled).  Marker
    files and logs never share a name: the former end in [.txt], the latter in
    [.jsonl]. *)
Record storage : Type := Storage {
  files : gmap (list N) (list N);
  dirs : gset (list N);
  logs : gmap (list N) (list (list N))
}.

(** The running process: the storage and what was written so far to the two
    output channels. *)
Record process : Type := Process {
  store : storage;
  stdout : list json_out;
  stderr : list json_out
}.

(** How a piece of code ends: normally, by throwing (the error's message is
    kept), or by [process.exit], which no [catch] sees. *)
Inductive completion (A : Type) : Type :=
| Normal (a : A)
| Throw (message : jsstring)
| Exit (code : Z).
Arguments Normal {A} a.
Arguments Throw {A} message.
Arguments Exit {A} code.

Definition js_m (A : Type) : Type := process → completion A * process.

#[global] Instance js_ret : MRet js_m := λ A a p, (Normal a, p).

#[global] Instance js_bind : MBind js_m := λ A B f m p,
  match m p with
  | (Normal a, p') => f a p'
  | (Throw e, p') => (Throw e, p')
  | (Exit c, p') => (Exit c, p')
  end.

(** [try { body } catch (error) { handler(error.message) }] *)
Definition try_catch {A} (body : js_m A) (handler : jsstring → js_m A)
  : js_m A := λ p,
  match body p with
  | (Throw e, p') => handler e p'
  | r => r
  end.

Definition throw {A} (message : jsstring) : js_m A := λ p, (Throw message, p).

Definition console_log (v : json_out) : js_m unit := λ p,
  (Normal (), Process (store p) (stdout p ++ [v]) (stderr p)).

Definition console_error (v : json_out) : js_m unit := λ p,
  (Normal (), Process (store p) (stdout p) (stderr p ++ [v])).

Definition process_exit {A} (code : Z) : js_m A := λ p, (Exit code, p).

Definition update_store (f : storage → storage) : js_m unit := λ p,
  (Normal (), Process (f (store p)) (stdout p) (stderr p)).

(** [fs/promises] on a file system that fails only for a missing file. *)
Definition ENOENT : jsstring :=
  Eval vm_compute in js "ENOENT: no such file or directory".

Definition fs_mkdir_recursive (dir : jsstring) : js_m unit :=
  update_store (λ s, Storage (files s) ({[dir]} ∪ dirs s) (logs s)).

Definition fs_writeFile (file content : jsstring) : js_m unit :=
  update_store (λ s, Storage (<[file := content]> (files s)) (dirs s) (logs s)).

Definition fs_appendFile (file line : jsstring) : js_m unit :=
  update_store (λ s,
    Storage (files s) (dirs s)
            (<[file := default [] (logs s !! file) ++ [line]]> (logs s))).

Definition fs_unlink (file : jsstring) : js_m unit := λ p,
  match files (store p) !! file with
  | Some _ =>
      update_store (λ s, Storage (delete file (files s)) (dirs s) (logs s)) p
  | None => (Throw ENOENT, p)
  end.

Definition fs_access (file : jsstring) : js_m unit := λ p,
  match files (store p) !! file with
  | Some _ => (Normal (), p)
  | None => (Throw ENOENT, p)
  end.

(** [path.join]: the parts joined by [/].  Its normalisation changes nothing
    for a home directory in normal form and a session id that holds no
    separator. *)
Fixpoint path_join (parts : list jsstring) : jsstring :=
  match parts with
  | [] => []
  | [a] => a
  | a :: rest => a ++ 47%N :: path_join rest
  end.

(** [xs.join(sep)] *)
Fixpoint join (sep : jsstring) (xs : list jsstring) : jsstring :=
  match xs with
  | [] => []
  | [a] => a
  | a :: rest => a ++ sep ++ join sep rest
  end.

(** *** The event read from standard input *)

(** The event is a JSON object whose fields have the types of the hook
    interface: the session id, the event name, the prompt, the tool name and
    the command are strings, the tool parameters are an object; any of them
    may be missing ([None] is [undefined]). *)
Record tool_params : Type := ToolParams { command : option jsstring }.

Record hook_data : Type := HookData {
  session_id : option jsstring;
  hook_event_name : option jsstring;
  prompt : option jsstring;
  tool_name : option jsstring;
  tool : option jsstring;
  tool_input : option tool_params;
  params : option tool_params;
  parameters : option tool_params
}.

(** The text on standard input, seen through [JSON.parse]: either it throws
    a SyntaxError with some message, or it yields the event. *)
Inductive stdin : Type :=
| Unparseable (message : jsstring)
| Parsed (hookData : hook_data).

(** *** rule-manager.js *)

Section Handler.
(** [os.homedir()] and whether [-log] was on the command line. *)
Variable homedir : jsstring.
Variable enableLogging : bool.

Definition SAFE_TOOLS : list jsstring := Eval vm_compute in
  [ js "Read"; js "Grep"; js "Glob"; js "LS"; js "WebFetch"; js "WebSearch";
    js "ListMcpResourcesTool"; js "ReadMcpResourceTool"; js "TodoRead" ].

(** [SAFE_TOOLS.has(toolName)] *)
Definition SAFE_TOOLS_has (toolName : option jsstring) : bool :=
  match toolName with
  | Some t => bool_decide (t ∈ SAFE_TOOLS)
  | None => false
  end.

Definition getStateDir : jsstring :=
  path_join [homedir; js ".claude"; js "hook-state"].

Definition getQuestionPath (session_id : jsstring) : jsstring :=
  path_join [getStateDir; session_id ++ js ".question.txt"].

Definition getCommitPath (session_id : jsstring) : jsstring :=
  path_join [getStateDir; session_id ++ js ".commit.txt"].

Definition getLogPath (session_id : jsstring) : jsstring :=
  path_join [getStateDir; session_id ++ js ".jsonl"].

Definition ensureStateDir : js_m unit := fs_mkdir_recursive getStateDir.

(** [entry] is the [event] label of the logged record. *)
Definition writeLog (session_id : jsstring) (entry : string) : js_m unit :=
  if negb enableLogging then mret ()
  else
    try_catch
      (ensureStateDir ;; fs_appendFile (getLogPath session_id) (js entry))
      (λ _, mret ()).

Definition fileExists (filePath : jsstring) : js_m bool :=
  try_catch (fs_access filePath ;; mret true) (λ _, mret false).

Definition createMarkerFile (filePath content : jsstring) : js_m unit :=
  ensureStateDir ;; fs_writeFile filePath content.

Definition deleteMarkerFile (filePath : jsstring) : js_m unit :=
  try_catch (fs_unlink filePath) (λ _, mret ()).

Definition cleanupSession (session_id : jsstring) : js_m unit :=
  deleteMarkerFile (getQuestionPath session_id) ;;
  deleteMarkerFile (getCommitPath session_id).

(** [/^Q:\s/] *)
Definition re_question : regexp := Eval vm_compute in
  RegExp (Cat Bol (Cat (Str (js "Q:")) (One Space))) false.

(** [/^Q:\s*/] *)
Definition re_question_strip : regexp := Eval vm_compute in
  RegExp (Cat Bol (Cat (Str (js "Q:")) (Star Space))) false.

(** [/^commit!(\s|$)/i] *)
Definition re_commit : regexp := Eval vm_compute in
  RegExp (Cat Bol (Cat (Str (js "commit!")) (Alt (One Space) Eol))) true.

(** [/^commit!\s*/i] *)
Definition re_commit_strip : regexp := Eval vm_compute in
  RegExp (Cat Bol (Cat (Str (js "commit!")) (Star Space))) true.

Definition isQuestionPrefix (prompt : option jsstring) : bool :=
  test re_question (ToString prompt).

Definition isCommitPrefix (prompt : option jsstring) : bool :=
  test re_commit (ToString prompt).

(** [/\bgit\s+commit\b/] and [/\bgit\s+.*\s+commit\b/] *)
Definition gitCommitPatterns : list regexp := Eval vm_compute in
  [ RegExp (Cat WordB (Cat (Str (js "git")) (Cat (Plus Space)
              (Cat (Str (js "commit")) WordB)))) false;
    RegExp (Cat WordB (Cat (Str (js "git")) (Cat (Plus Space)
              (Cat (Star AnyChar) (Cat (Plus Space)
              (Cat (Str (js "commit")) WordB)))))) false ].

Definition isGitCommit (command : jsstring) : bool :=
  existsb (λ pattern, test pattern command) gitCommitPatterns.

(** [prompt.replace(re, '')]: a TypeError when [prompt] is [undefined]. *)
Definition prompt_replace (prompt : option jsstring) (re : regexp)
  : js_m jsstring :=
  match prompt with
  | Some s => mret (replace s re [])
  | None =>
      throw (js "Cannot read properties of undefined (reading 'replace')")
  end.

Definition question_context : jsstring := Eval vm_compute in
  js "USER ASKED A QUESTION: You must answer it before doing anything else. DO NOT use tools. DO NOT perform actions. ONLY provide the answer.".

Definition question_block_message : jsstring :=
  js "THE USER ASKED A QUESTION. You must answer the question before performing any actions. You may use these tools to help answer: "
  ++ join (js ", ") SAFE_TOOLS ++ js ".".

Definition commit_block_message : jsstring := Eval vm_compute in
  js "Committing without user's review and approval is OFFENSIVE, RUDE, and INAPPROPRIATE.".

(** The session id in force: [hookData.session_id || 'unknown']. *)
Definition unknown : jsstring := Eval vm_compute in js "unknown".

Definition session_of (hookData : hook_data) : jsstring :=
  if truthy (session_id hookData) then ToString (session_id hookData)
  else unknown.

(** [case 'UserPromptSubmit'] *)
Definition onUserPromptSubmit (session_id : jsstring) (hookData : hook_data)
  : js_m unit :=
  let prompt := prompt hookData in
  hasQuestion ←
    (if isQuestionPrefix prompt then
       actualPrompt ← prompt_replace prompt re_question_strip;
       createMarkerFile (getQuestionPath session_id) actualPrompt ;;
       writeLog session_id "question_detected" ;;
       mret true
     else mret false);
  (if isCommitPrefix prompt then
     actualPrompt ← prompt_replace prompt re_commit_strip;
     createMarkerFile (getCommitPath session_id) actualPrompt ;;
     writeLog session_id "commit_allowed"
   else mret ()) ;;
  if hasQuestion : bool then
    writeLog session_id "response" ;;
    console_log (AdditionalContext question_context)
  else
    writeLog session_id "response" ;;
    console_log EmptyObject.

(** [hookData.tool_name || hookData.tool] *)
Definition toolName_of (hookData : hook_data) : option jsstring :=
  or_else (tool_name hookData) (tool hookData).

(** [hookData.tool_input || hookData.params || hookData.parameters]: an
    object is truthy whatever it holds. *)
Definition toolParams_of (hookData : hook_data) : option tool_params :=
  match tool_input hookData with
  | Some o => Some o
  | None =>
      match params hookData with
      | Some o => Some o
      | None => parameters hookData
      end
  end.

(** [toolParams?.command] *)
Definition command_of (toolParams : option tool_params)
  : option jsstring :=
  toolParams ≫= command.

(** [case 'PreToolUse'] *)
Definition onPreToolUse (session_id : jsstring) (hookData : hook_data)
  : js_m unit :=
  let toolName := toolName_of hookData in
  let toolParams := toolParams_of hookData in
  hasQuestion ← fileExists (getQuestionPath session_id);
  writeLog session_id "pretooluse_check" ;;
  (if hasQuestion && negb (SAFE_TOOLS_has toolName) then
     writeLog session_id "blocking_tool" ;;
     console_error (ErrorObject question_block_message) ;;
     process_exit 2
   else mret ()) ;;
  (if bool_decide (toolName = Some (js "Bash"))
      && truthy (command_of toolParams) then
     if isGitCommit (ToString (command_of toolParams)) then
       hasCommitPermission ← fileExists (getCommitPath session_id);
       if negb hasCommitPermission then
         writeLog session_id "blocking_git_commit" ;;
         console_error (ErrorObject commit_block_message) ;;
         process_exit 2
       else writeLog session_id "allowing_git_commit"
     else mret ()
   else mret ()) ;;
  writeLog session_id "allowing_tool" ;;
  console_log EmptyObject.

(** [case 'Stop': case 'SessionStart'] *)
Definition onSessionBoundary (session_id : jsstring) : js_m unit :=
  writeLog session_id "session_cleanup" ;;
  cleanupSession session_id ;;
  console_log EmptyObject.

(** [default] *)
Definition onOtherEvent (session_id : jsstring) : js_m unit :=
  writeLog session_id "passthrough" ;;
  console_log EmptyObject.

(** The [catch] block of [handleHook]. *)
Definition onError (session_id message : jsstring) : js_m unit :=
  writeLog session_id "error" ;;
  console_log (ErrorObject (js "Hook handler error: " ++ message)) ;;
  process_exit 1.

Definition is_event (hookData : hook_data) (name : string) : bool :=
  bool_decide (hook_event_name hookData = Some (js name)).

(** [handleHook]: [session_id] is still ['unknown'] when [JSON.parse]
    throws, and is the event's afterwards. *)
Definition handleHook (input : stdin) : js_m unit :=
  match input with
  | Unparseable message => onError unknown message
  | Parsed hookData =>
      let session_id := session_of hookData in
      try_catch
        (writeLog session_id "hook_received" ;;
         if is_event hookData "UserPromptSubmit" then
           onUserPromptSubmit session_id hookData
         else if is_event hookData "PreToolUse" then
           onPreToolUse session_id hookData
         else if is_event hookData "Stop"
                 || is_event hookData "SessionStart" then
           onSessionBoundary session_id
         else onOtherEvent session_id)
        (onError session_id)
  end.

(** What one invocation leaves behind. *)
Record outcome : Type := Outcome {
  exit_code : Z;
  printed : list json_out;        (* standard output *)
  complained : list json_out;     (* standard error *)
  store_after : storage
}.

Definition finish (code : Z) (p : process) : outcome :=
  Outcome code (stdout p) (stderr p) (store p).

(** [handleHook().catch(...)], run as a fresh process on the storage [s]:
    the exit code is 0 when the handler returns, the argument of
    [process.exit] when it exits, and 1 after the last-resort report of an
    error that escaped the handler. *)
Definition main (input : stdin) (s : storage) : outcome :=
  match handleHook input (Process s [] []) with
  | (Normal _, p) => finish 0 p
  | (Exit code, p) => finish code p
  | (Throw message, p) =>
      finish 1
        (console_error (ErrorObject (js "Fatal error: " ++ message)) p).2
  end.

(** A sequence of invocations, each a process of its own, sharing the
    storage. *)
Definition run_all (inputs : list stdin) (s : storage) : storage :=
  foldl (λ s input, store_after (main input s)) s inputs.

(** The flags of a session, as the store holds them. *)
Definition question_flag (s : storage) (sid : jsstring) : option jsstring :=
  files s !! getQuestionPath sid.

Definition commit_flag (s : storage) (sid : jsstring) : option jsstring :=
  files s !! getCommitPath sid.

End Handler.

End RuleManager.

(** ** Vocabulary of the properties *)

Import JsString RegExp RuleManager.

(** The code unit to the left of the cursor once [m] has been read. *)
Definition left_of (prev : option code_unit) (m : jsstring)
  : option code_unit :=
  foldl (λ _ c, Some c) prev m.

(** Two texts that differ at most in the case of their ASCII letters. *)
Definition same_ignoring_case (a b : jsstring) : Prop :=
  canonicalize <$> a = canonicalize <$> b.

(** A text made of whitespace only. *)
Definition all_space (ws : jsstring) : Prop :=
  Forall (λ c, is_space c = true) ws.

(** A text that stays on one line. *)
Definition one_line (t : jsstring) : Prop :=
  Forall (λ c, is_line_terminator c = false) t.

(** A text before which a word ends: it is empty or starts with a character
    that is not a word character. *)
Definition ends_word (rest : jsstring) : Prop :=
  word_right rest = false.

(** The literal texts of the two conventions and of the git command. *)
Definition question_marker : jsstring := Eval vm_compute in js "Q:".
Definition commit_marker : jsstring := Eval vm_compute in js "commit!".
Definition git_word : jsstring := Eval vm_compute in js "git".
Definition commit_word : jsstring := Eval vm_compute in js "commit".

(** A prompt that starts with the question marker: [Q:] and one whitespace
    character; [rest] is what follows that character. *)
Definition question_prompt (p rest : jsstring) : Prop :=
  ∃ c, p = question_marker ++ c :: rest ∧ is_space c = true.

(** A prompt that starts with the commit marker, [commit!] in any case, at
    the end of the prompt or before whitespace; [rest] is what follows the
    marker. *)
Definition commit_prompt (p rest : jsstring) : Prop :=
  ∃ m, p = m ++ rest ∧ same_ignoring_case m commit_marker
       ∧ (rest = [] ∨ ∃ c t, rest = c :: t ∧ is_space c = true).

(** What the properties observe of a process: the marker files and the two
    output channels.  The directories and the logs are left out. *)
Definition observation : Type :=
  gmap (list N) (list N) * list json_out * list json_out.

Definition obs (p : process) : observation :=
  (files (store p), stdout p, stderr p).

(** The exit code and the observation an invocation ends with. *)
Definition result_of (r : outcome) : Z * observation :=
  (exit_code r, (files (store_after r), printed r, complained r)).

(** [wp m p Q]: run from [p], the code [m] ends in a way and with an
    observation that satisfy [Q]. *)
Definition wp {A} (m : js_m A) (p : process)
    (Q : completion A → observation → Prop) : Prop :=
  Q (m p).1 (obs (m p).2).

(** The end of the process, from the way [handleHook] ends. *)
Definition at_exit (c : completion unit) (o : observation)
  : Z * observation :=
  match c with
  | Normal _ => (0%Z, o)
  | Exit code => (code, o)
  | Throw message =>
      (1%Z, (o.1.1, o.1.2,
             o.2 ++ [ErrorObject (js "Fatal error: " ++ message)]))
  end.

(** A pre-tool-use event on standard input. *)
Definition is_pre_tool_use (input : stdin) : Prop :=
  ∃ d, input = Parsed d ∧ hook_event_name d = Some (js "PreToolUse").

(** A session-end or session-start event on standard input, for the
    session [sid]. *)
Definition is_boundary_of (sid : jsstring) (d : hook_data) : Prop :=
  (hook_event_name d = Some (js "Stop")
   ∨ hook_event_name d = Some (js "SessionStart"))
  ∧ session_of d = sid.


(** Concrete inputs for the examples. *)
Definition home : jsstring := Eval vm_compute in js "/home/user".

Definition store_of (fs : list (jsstring * jsstring)) : storage :=
  Storage (list_to_map fs) ∅ ∅.

Definition event (name sid : string) (prompt : option jsstring)
  : hook_data :=
  HookData (Some (js sid)) (Some (js name)) prompt None None None None None.

Definition tool_call (sid tool : string) (cmd : option jsstring)
  : hook_data :=
  HookData (Some (js sid)) (Some (js "PreToolUse")) None (Some (js tool)) None
           (Some (ToolParams cmd)) None None.

(** The session an invocation works for: it is still ['unknown'] when the
    input does not parse. *)
Definition session_of_input (input : stdin) : jsstring :=
  match input with
  | Unparseable _ => unknown
  | Parsed d => session_of d
  end.

(** A session-end or session-start event on standard input. *)
Definition is_boundary (input : stdin) : Prop :=
  ∃ d, input = Parsed d
       ∧ (hook_event_name d = Some (js "Stop")
          ∨ hook_event_name d = Some (js "SessionStart")).

(** A prompt-submitted event whose prompt matches one of the two
    conventions. *)
Definition is_marked_prompt (input : stdin) : Prop :=
  ∃ d, input = Parsed d
       ∧ hook_event_name d = Some (js "UserPromptSubmit")
       ∧ (isQuestionPrefix (prompt d) = true
          ∨ isCommitPrefix (prompt d) = true).


(** A text after which a word can start: it is empty or ends with a
    character that is not a word character. *)
Definition begins_word (pre : jsstring) : Prop :=
  word_left (left_of None pre) = false.

(** A session id that is a single path component: it holds no [/]. *)
Definition plain_name (sid : jsstring) : Prop := 47%N ∉ sid.

(** The entries of a log file; a missing file has none. *)
Definition log_of (s : storage) (file : jsstring) : list jsstring :=
  default [] (logs s !! file).

(** Only the log file [target] is written, and only at its end. *)
Definition appends_to (target : jsstring) (s s' : storage) : Prop :=
  (∀ file, file ≠ target → logs s' !! file = logs s !! file)
  ∧ ∃ entries, log_of s' target = log_of s target ++ entries.

(** No log file is written. *)
Definition same_logs (s s' : storage) : Prop := logs s' = logs s.

(** Whatever the code [m] does, the storage it leaves is related by [R] to
    the one it found. *)
Definition preserves {A} (R : storage → storage → Prop) (m : js_m A)
  : Prop :=
  ∀ p, R (store p) (store (m p).2).





(** ** Facts about the matcher *)

Section MatcherFacts.
Variable ci : bool.

Lemma run_cat p q cur end_ mid :
  mid ∈ run ci p cur → end_ ∈ run ci q mid → end_ ∈ run ci (Cat p q) cur.
Proof. intros Hp Hq. cbn. apply list_elem_of_bind. eauto. Qed.

Lemma run_bol p cur :
  run ci (Cat Bol p) cur =
  match cur.1 with None => run ci p cur | Some _ => [] end.
Proof.
  destruct cur as [[c|] s]; cbn; [done|]. apply app_nil_r.
Qed.

(** An anchored pattern matches at index 0 or nowhere. *)
Lemma search_bol_later p before c s :
  search ci (Cat Bol p) before (Some c) s = None.
Proof.
  revert before c. induction s as [|d s IH]; intros before c.
  - cbn [search]. by rewrite run_bol.
  - cbn [search]. rewrite run_bol. cbn. apply IH.
Qed.

Lemma search_bol p s :
  search ci (Cat Bol p) [] None s =
  match run ci p (None, s) with
  | (_, rest) :: _ => Some ([], rest)
  | [] => None
  end.
Proof.
  destruct s as [|c s]; cbn [search]; rewrite run_bol; cbn [fst].
  - done.
  - destruct (run ci p _) as [|[? ?] ?]; [|done].
    apply search_bol_later.
Qed.

(** A pattern that matches after [pre] is found by the search, there or
    earlier. *)
Lemma search_finds p pre s before prev :
  run ci p (left_of prev pre, s) ≠ [] →
  is_Some (search ci p before prev (pre ++ s)).
Proof.
  revert before prev.
  induction pre as [|c pre IH]; intros before prev Hrun.
  - cbn in *. destruct s as [|c s]; cbn [search];
      destruct (run ci p _) as [|[? ?] ?]; try done; by eexists.
  - cbn [app search].
    destruct (run ci p (prev, _)) as [|[? ?] ?]; [|by eexists].
    apply IH, Hrun.
Qed.

(** Reading a literal run. *)
Lemma eat_app w m prev rest :
  Forall2 (λ p c, same_char ci p c = true) w m →
  eat ci w prev (m ++ rest) = [(left_of prev m, rest)].
Proof.
  intros H. revert prev.
  induction H as [|p c w m Hpc _ IH]; intros prev; [done|].
  cbn. rewrite Hpc. apply IH.
Qed.

Lemma eat_inv w prev s cur :
  cur ∈ eat ci w prev s →
  ∃ m, s = m ++ cur.2 ∧ Forall2 (λ p c, same_char ci p c = true) w m.
Proof.
  revert prev s. induction w as [|p w IH]; intros prev s Hin.
  - cbn in Hin. apply list_elem_of_singleton in Hin as ->.
    exists []. by split.
  - destruct s as [|c s]; cbn in Hin; [by apply elem_of_nil in Hin|].
    destruct (same_char ci p c) eqn:Hpc; [|by apply elem_of_nil in Hin].
    apply IH in Hin as (m & -> & Hm).
    exists (c :: m). split; [done|]. by constructor.
Qed.

(** Reading [cs*]: stopping right away is one way ... *)
Lemma star_here cs prev s : (prev, s) ∈ star ci cs prev s.
Proof.
  destruct s as [|c s]; cbn; [by apply list_elem_of_singleton|].
  destruct (in_set ci cs c); [|by apply list_elem_of_singleton].
  apply elem_of_app. right. by apply list_elem_of_singleton.
Qed.

(** ... and so is reading any prefix that lies in the set. *)
Lemma star_reads cs m prev rest :
  Forall (λ c, in_set ci cs c = true) m →
  (left_of prev m, rest) ∈ star ci cs prev (m ++ rest).
Proof.
  intros H. revert prev. induction H as [|c m Hc _ IH]; intros prev.
  - apply star_here.
  - cbn. rewrite Hc. apply elem_of_app. left. apply IH.
Qed.

Lemma plus_reads cs m prev rest :
  m ≠ [] → Forall (λ c, in_set ci cs c = true) m →
  (left_of prev m, rest) ∈ run ci (Plus cs) (prev, m ++ rest).
Proof.
  intros Hne H. destruct H as [|c m Hc H]; [done|].
  cbn. rewrite Hc. by apply star_reads.
Qed.

(** The preferred way of reading [\s*] takes all the whitespace. *)
Lemma star_space_first prev s :
  ∃ q l, star ci Space prev s = (q, skip_space s) :: l.
Proof.
  revert prev. induction s as [|c s IH]; intros prev; cbn; [by eauto|].
  destruct (is_space c); [|by eauto].
  destruct (IH (Some c)) as (q & l & ->). by eauto.
Qed.
End MatcherFacts.

Lemma same_chars_exact w m :
  Forall2 (λ p c, same_char false p c = true) w m ↔ w = m.
Proof.
  split.
  - induction 1 as [|p c w m Hpc _ IH]; [done|].
    apply N.eqb_eq in Hpc. by subst.
  - intros <-. induction w; constructor; [apply N.eqb_refl | done].
Qed.

Lemma same_chars_ci w m :
  Forall2 (λ p c, same_char true p c = true) w m ↔ same_ignoring_case m w.
Proof.
  unfold same_ignoring_case. split.
  - induction 1 as [|p c w m Hpc _ IH]; [done|].
    apply N.eqb_eq in Hpc. cbn. by rewrite Hpc, IH.
  - revert m. induction w as [|p w IH]; intros [|c m] H;
      try done; try (by constructor).
    injection H as Hc Hm. constructor; [|by apply IH].
    cbn. by apply N.eqb_eq.
Qed.

(** A pattern anchored at the start is tested at index 0 only. *)
Lemma test_bol ci p s :
  test (RegExp (Cat Bol p) ci) s = true ↔ ∃ cur, cur ∈ run ci p (None, s).
Proof.
  unfold test, exec. cbn [source ignoreCase]. rewrite search_bol.
  destruct (run ci p _) as [|[q rest] l]; split; try done.
  - intros [cur H]. by apply elem_of_nil in H.
  - intros _. exists (q, rest). apply elem_of_cons. by left.
Qed.

Lemma replace_bol ci p s by_ q rest l :
  run ci p (None, s) = (q, rest) :: l →
  replace s (RegExp (Cat Bol p) ci) by_ = by_ ++ rest.
Proof.
  intros H. unfold replace, exec. cbn [source ignoreCase].
  by rewrite search_bol, H.
Qed.

(** ** Facts about the recognizers *)

Lemma isQuestionPrefix_iff s :
  isQuestionPrefix (Some s) = true ↔ ∃ rest, question_prompt s rest.
Proof.
  unfold isQuestionPrefix, re_question, question_prompt, question_marker.
  cbn [ToString].
  rewrite test_bol. split.
  - intros [cur H]. cbn [run] in H.
    apply list_elem_of_bind in H as (mid & Hcur & Hmid).
    apply eat_inv in Hmid as (m & Hs & Hm). cbn in Hs.
    apply same_chars_exact in Hm as <-.
    destruct mid as [q [|c t]]; cbn in Hcur; [by apply elem_of_nil in Hcur|].
    destruct (is_space c) eqn:Hc; [|by apply elem_of_nil in Hcur].
    exists t, c. by rewrite Hs.
  - intros (rest & c & -> & Hc). exists (Some c, rest).
    cbn. rewrite Hc. cbn. apply elem_of_cons. by left.
Qed.

Lemma question_strip p rest :
  question_prompt p rest → replace p re_question_strip [] = skip_space rest.
Proof.
  intros (c & -> & Hc). unfold re_question_strip, question_marker.
  destruct (star_space_first false (Some c) rest) as (q & l & Hstar).
  erewrite replace_bol; [done|].
  cbn. rewrite Hc, Hstar. cbn. done.
Qed.

Lemma isCommitPrefix_iff s :
  isCommitPrefix (Some s) = true ↔ ∃ rest, commit_prompt s rest.
Proof.
  unfold isCommitPrefix, re_commit, commit_prompt, commit_marker.
  cbn [ToString].
  rewrite test_bol. split.
  - intros [cur H]. cbn [run] in H.
    apply list_elem_of_bind in H as (mid & Hcur & Hmid).
    apply eat_inv in Hmid as (m & Hs & Hm). cbn in Hs.
    apply same_chars_ci in Hm.
    exists mid.2, m. split_and!; [done..|].
    destruct mid as [q [|c t]]; cbn in *; [by left|right].
    destruct (is_space c) eqn:Hc; [by eauto|].
    by apply elem_of_nil in Hcur.
  - intros (rest & m & -> & Hm & Hrest).
    apply same_chars_ci in Hm.
    cbn [run fst snd]. rewrite (eat_app _ _ _ _ _ Hm). cbn.
    destruct Hrest as [->|(c & t & -> & Hc)].
    + eexists. apply elem_of_cons. by left.
    + rewrite Hc. eexists. apply elem_of_cons. by left.
Qed.

Lemma commit_strip p rest :
  commit_prompt p rest → replace p re_commit_strip [] = skip_space rest.
Proof.
  intros (m & -> & Hm & _). apply same_chars_ci in Hm.
  unfold re_commit_strip.
  destruct (star_space_first true (left_of None m) rest) as (q & l & Hstar).
  erewrite replace_bol; [done|].
  cbn [run fst snd]. rewrite (eat_app _ _ _ _ _ Hm). cbn.
  rewrite Hstar. cbn. done.
Qed.

(** The two markers start with different letters. *)
Lemma markers_exclusive s :
  isQuestionPrefix (Some s) = true → isCommitPrefix (Some s) = false.
Proof.
  intros (rest & c & -> & _)%isQuestionPrefix_iff.
  apply not_true_is_false.
  intros (rest' & m & Hs & Hm & _)%isCommitPrefix_iff.
  unfold same_ignoring_case in Hm.
  destruct m as [|a m]; [done|].
  injection Hs as <- _. done.
Qed.

Lemma undefined_prompt :
  isQuestionPrefix None = false ∧ isCommitPrefix None = false.
Proof. by vm_compute. Qed.

Lemma test_finds re pre s :
  run (ignoreCase re) (source re) (left_of None pre, s) ≠ [] →
  test re (pre ++ s) = true.
Proof.
  intros H. unfold test, exec.
  by destruct (search_finds _ _ pre s [] None H) as [? ->].
Qed.

Lemma nonempty_of_elem {A} (x : A) (l : list A) : x ∈ l → l ≠ [].
Proof. intros H ->. by apply elem_of_nil in H. Qed.

Lemma word_boundary ci prev s :
  xorb (word_left prev) (word_right s) = true →
  (prev, s) ∈ run ci WordB (prev, s).
Proof. intros H. cbn. rewrite H. by apply list_elem_of_singleton. Qed.

Lemma eat_exact w prev rest :
  (left_of prev w, rest) ∈ run false (Str w) (prev, w ++ rest).
Proof.
  cbn. rewrite (eat_app false w w); [by apply list_elem_of_singleton|].
  by apply same_chars_exact.
Qed.

(** [git], whitespace, [commit], at a word boundary on both sides. *)
Lemma isGitCommit_bare pre ws rest :
  word_left (left_of None pre) = false →
  ws ≠ [] → all_space ws → ends_word rest →
  isGitCommit (pre ++ git_word ++ ws ++ commit_word ++ rest) = true.
Proof.
  intros Hpre Hne Hws Hrest. unfold isGitCommit, gitCommitPatterns.
  cbn [existsb]. apply orb_true_iff. left.
  apply test_finds. cbn [source ignoreCase].
  apply (nonempty_of_elem (left_of None commit_word, rest)).
  eapply run_cat.
  { apply word_boundary. by rewrite Hpre. }
  eapply run_cat; [apply (eat_exact git_word)|].
  eapply run_cat; [by apply plus_reads|].
  eapply run_cat; [apply (eat_exact commit_word)|].
  apply word_boundary. cbn. by rewrite Hrest.
Qed.

(** [git], whitespace, anything on one line, whitespace, [commit]. *)
Lemma isGitCommit_flags pre ws1 flags ws2 rest :
  word_left (left_of None pre) = false →
  ws1 ≠ [] → all_space ws1 → one_line flags →
  ws2 ≠ [] → all_space ws2 → ends_word rest →
  isGitCommit
    (pre ++ git_word ++ ws1 ++ flags ++ ws2 ++ commit_word ++ rest) = true.
Proof.
  intros Hpre Hne1 Hws1 Hflags Hne2 Hws2 Hrest.
  unfold isGitCommit, gitCommitPatterns.
  cbn [existsb]. apply orb_true_iff. right. apply orb_true_iff. left.
  apply test_finds. cbn [source ignoreCase].
  apply (nonempty_of_elem (left_of None commit_word, rest)).
  eapply run_cat.
  { apply word_boundary. by rewrite Hpre. }
  eapply run_cat; [apply (eat_exact git_word)|].
  eapply run_cat; [by apply plus_reads|].
  eapply run_cat.
  { cbn [run fst snd]. apply star_reads.
    eapply Forall_impl; [exact Hflags|]. cbn. by intros c ->. }
  eapply run_cat; [by apply plus_reads|].
  eapply run_cat; [apply (eat_exact commit_word)|].
  apply word_boundary. cbn. by rewrite Hrest.
Qed.

(** ** A program logic for the process monad *)

Section Logic.
Context {A : Type}.
Implicit Types (p : process) (Q : completion A → observation → Prop).

Lemma wp_ret (a : A) p Q : Q (Normal a) (obs p) → wp (mret a) p Q.
Proof. done. Qed.

Lemma wp_throw message p Q : Q (Throw message) (obs p) → wp (throw message) p Q.
Proof. done. Qed.

Lemma wp_process_exit code p Q :
  Q (Exit code) (obs p) → wp (process_exit code) p Q.
Proof. done. Qed.

Lemma wp_bind {B} (m : js_m B) (f : B → js_m A) p Q :
  wp m p (λ c o,
    match c with
    | Normal b => ∀ p', obs p' = o → wp (f b) p' Q
    | Throw e => Q (Throw e) o
    | Exit code => Q (Exit code) o
    end) →
  wp (m ≫= f) p Q.
Proof.
  unfold wp, mbind, js_bind.
  destruct (m p) as [[b|e|code] p']; cbn; [|done..].
  intros H. by apply H.
Qed.

Lemma wp_try_catch (body : js_m A) (handler : jsstring → js_m A) p Q :
  wp body p (λ c o,
    match c with
    | Throw e => ∀ p', obs p' = o → wp (handler e) p' Q
    | _ => Q c o
    end) →
  wp (try_catch body handler) p Q.
Proof.
  unfold wp, try_catch.
  destruct (body p) as [[a|e|code] p']; cbn; [done| |done].
  intros H. by apply H.
Qed.
End Logic.

Section Primitives.
Variable homedir : jsstring.
Variable enableLogging : bool.
Implicit Types (p : process) (f : gmap (list N) (list N)).
Implicit Types (out err : list json_out).

Lemma wp_console_log v p (Q : completion unit → observation → Prop)
    f out err :
  obs p = (f, out, err) → Q (Normal ()) (f, out ++ [v], err) →
  wp (console_log v) p Q.
Proof. unfold wp, obs. cbn. by intros [= <- <- <-]. Qed.

Lemma wp_console_error v p (Q : completion unit → observation → Prop)
    f out err :
  obs p = (f, out, err) → Q (Normal ()) (f, out, err ++ [v]) →
  wp (console_error v) p Q.
Proof. unfold wp, obs. cbn. by intros [= <- <- <-]. Qed.

(** Logging changes nothing that is observed, and never throws. *)
Lemma wp_writeLog sid entry p (Q : completion unit → observation → Prop) :
  Q (Normal ()) (obs p) → wp (writeLog homedir enableLogging sid entry) p Q.
Proof. unfold wp, writeLog. by destruct enableLogging. Qed.

(** [fileExists] answers whether the file is there, and never throws. *)
Lemma wp_fileExists file p (Q : completion bool → observation → Prop)
    f out err :
  obs p = (f, out, err) →
  Q (Normal (match f !! file with Some _ => true | None => false end))
    (f, out, err) →
  wp (fileExists file) p Q.
Proof.
  unfold wp, obs, fileExists, try_catch, mbind, js_bind, fs_access.
  intros [= <- <- <-]. by destruct (files (store p) !! file).
Qed.

Lemma wp_createMarkerFile file content p
    (Q : completion unit → observation → Prop) f out err :
  obs p = (f, out, err) →
  Q (Normal ()) (<[file := content]> f, out, err) →
  wp (createMarkerFile homedir file content) p Q.
Proof. unfold wp, obs. cbn. by intros [= <- <- <-]. Qed.

(** [deleteMarkerFile] leaves the file absent, and never throws: a
    missing file is the error it swallows. *)
Lemma wp_deleteMarkerFile file p
    (Q : completion unit → observation → Prop) f out err :
  obs p = (f, out, err) →
  Q (Normal ()) (delete file f, out, err) →
  wp (deleteMarkerFile file) p Q.
Proof.
  unfold wp, obs, deleteMarkerFile, try_catch, fs_unlink.
  intros [= <- <- <-].
  destruct (files (store p) !! file) eqn:E; cbn; [done|].
  by rewrite delete_id.
Qed.

Lemma wp_prompt_replace s re p
    (Q : completion jsstring → observation → Prop) :
  Q (Normal (replace s re [])) (obs p) →
  wp (prompt_replace (Some s) re) p Q.
Proof. done. Qed.
End Primitives.

Ltac wp_known :=
  repeat match goal with
         | H : obs ?p = _ |- context [obs ?p] => rewrite H
         end.

Ltac wp_step :=
  lazymatch goal with
  | |- wp (mbind _ _) _ _ => apply wp_bind
  | |- wp (mret _) _ _ => apply wp_ret
  | |- wp (throw _) _ _ => apply wp_throw
  | |- wp (process_exit _) _ _ => apply wp_process_exit
  | |- wp (try_catch _ _) _ _ => apply wp_try_catch
  | |- wp (console_log _) _ _ => eapply wp_console_log; [eassumption|]
  | |- wp (console_error _) _ _ => eapply wp_console_error; [eassumption|]
  | |- wp (writeLog _ _ _ _) _ _ => apply wp_writeLog
  | |- wp (fileExists _) _ _ => eapply wp_fileExists; [eassumption|]
  | |- wp (createMarkerFile _ _ _) _ _ =>
      eapply wp_createMarkerFile; [eassumption|]
  | |- wp (deleteMarkerFile _) _ _ =>
      eapply wp_deleteMarkerFile; [eassumption|]
  | |- wp (prompt_replace (Some _) _) _ _ => apply wp_prompt_replace
  | |- ∀ p, obs p = _ → _ => intros ? ?
  end; cbv beta iota; cbn [orb andb negb]; wp_known.

Ltac wp_run := cbv beta iota; cbn [orb andb negb]; repeat wp_step.

(** ** What each kind of event does *)

Local Open Scope Z_scope.

Section Events.
Variable homedir : jsstring.
Variable enableLogging : bool.
Implicit Types (d : hook_data) (s : storage).

Local Abbreviation main := (main homedir enableLogging).
Local Abbreviation handleHook := (handleHook homedir enableLogging).
Local Abbreviation question_flag := (question_flag homedir).
Local Abbreviation commit_flag := (commit_flag homedir).
Local Abbreviation getQuestionPath := (getQuestionPath homedir).
Local Abbreviation getCommitPath := (getCommitPath homedir).

Lemma main_spec input s (Q : Z * observation → Prop) :
  (∀ p, obs p = (files s, [], []) →
        wp (handleHook input) p (λ c o, Q (at_exit c o))) →
  Q (result_of (main input s)).
Proof.
  intros H. specialize (H (Process s [] []) eq_refl).
  unfold wp in H. unfold RuleManager.main, result_of.
  by destruct (handleHook input _) as [[?|e|k] p].
Qed.

Lemma result_of_eq (r : outcome) code f out err :
  result_of r = (code, (f, out, err)) →
  exit_code r = code ∧ files (store_after r) = f
  ∧ printed r = out ∧ complained r = err.
Proof. by intros [= -> -> -> ->]. Qed.

Lemma files_of_result (r : outcome) code f out err :
  result_of r = (code, (f, out, err)) → files (store_after r) = f.
Proof. by intros [= _ -> _ _]. Qed.

(** The [switch] on the event name. *)
Lemma event_UserPromptSubmit d :
  hook_event_name d = Some (js "UserPromptSubmit") →
  is_event d "UserPromptSubmit" = true.
Proof. intros H. unfold is_event. rewrite H. by vm_compute. Qed.

Lemma event_PreToolUse d :
  hook_event_name d = Some (js "PreToolUse") →
  is_event d "UserPromptSubmit" = false ∧ is_event d "PreToolUse" = true.
Proof. intros H. unfold is_event. rewrite H. by vm_compute. Qed.

Lemma event_boundary d :
  hook_event_name d = Some (js "Stop")
  ∨ hook_event_name d = Some (js "SessionStart") →
  is_event d "UserPromptSubmit" = false ∧ is_event d "PreToolUse" = false
  ∧ is_event d "Stop" || is_event d "SessionStart" = true.
Proof. intros [H|H]; unfold is_event; rewrite H; by vm_compute. Qed.

Lemma run_unparseable message s :
  result_of (main (Unparseable message) s) =
  (1, (files s, [ErrorObject (js "Hook handler error: " ++ message)], [])).
Proof.
  apply main_spec. intros p Hp.
  unfold RuleManager.handleHook, onError. by wp_run.
Qed.

Lemma run_boundary d s :
  hook_event_name d = Some (js "Stop")
  ∨ hook_event_name d = Some (js "SessionStart") →
  result_of (main (Parsed d) s) =
  (0, (delete (getCommitPath (session_of d))
         (delete (getQuestionPath (session_of d)) (files s)),
       [EmptyObject], [])).
Proof.
  intros (E1 & E2 & E3)%event_boundary.
  apply main_spec. intros p Hp.
  unfold RuleManager.handleHook. rewrite E1, E2, E3.
  unfold onSessionBoundary, cleanupSession. by wp_run.
Qed.

Lemma run_other d s :
  is_event d "UserPromptSubmit" = false →
  is_event d "PreToolUse" = false →
  is_event d "Stop" = false →
  is_event d "SessionStart" = false →
  result_of (main (Parsed d) s) = (0, (files s, [EmptyObject], [])).
Proof.
  intros E1 E2 E3 E4.
  apply main_spec. intros p Hp.
  unfold RuleManager.handleHook. rewrite E1, E2, E3, E4.
  unfold onOtherEvent. by wp_run.
Qed.

(** A prompt-submitted event, by what the prompt starts with. *)
Lemma run_question d s p rest :
  hook_event_name d = Some (js "UserPromptSubmit") →
  prompt d = Some p → question_prompt p rest →
  result_of (main (Parsed d) s) =
  (0, (<[getQuestionPath (session_of d) := skip_space rest]> (files s),
       [AdditionalContext question_context], [])).
Proof.
  intros E%event_UserPromptSubmit Hprompt Hq.
  assert (isQuestionPrefix (Some p) = true) as Q1
    by (apply isQuestionPrefix_iff; eauto).
  pose proof (markers_exclusive p Q1) as Q2.
  apply main_spec. intros p0 Hp.
  unfold RuleManager.handleHook. rewrite E.
  unfold onUserPromptSubmit. rewrite Hprompt, Q1, Q2.
  wp_run. by rewrite (question_strip p rest).
Qed.

Lemma run_commit d s p rest :
  hook_event_name d = Some (js "UserPromptSubmit") →
  prompt d = Some p → commit_prompt p rest →
  result_of (main (Parsed d) s) =
  (0, (<[getCommitPath (session_of d) := skip_space rest]> (files s),
       [EmptyObject], [])).
Proof.
  intros E%event_UserPromptSubmit Hprompt Hc.
  assert (isCommitPrefix (Some p) = true) as Q2
    by (apply isCommitPrefix_iff; eauto).
  assert (isQuestionPrefix (Some p) = false) as Q1.
  { destruct (isQuestionPrefix (Some p)) eqn:Q1; [|done].
    apply markers_exclusive in Q1. congruence. }
  apply main_spec. intros p0 Hp.
  unfold RuleManager.handleHook. rewrite E.
  unfold onUserPromptSubmit. rewrite Hprompt, Q1, Q2.
  wp_run. by rewrite (commit_strip p rest).
Qed.

Lemma run_plain_prompt d s :
  hook_event_name d = Some (js "UserPromptSubmit") →
  isQuestionPrefix (prompt d) = false →
  isCommitPrefix (prompt d) = false →
  result_of (main (Parsed d) s) = (0, (files s, [EmptyObject], [])).
Proof.
  intros E%event_UserPromptSubmit Q1 Q2.
  apply main_spec. intros p0 Hp.
  unfold RuleManager.handleHook. rewrite E.
  unfold onUserPromptSubmit. rewrite Q1, Q2. by wp_run.
Qed.

(** A tool of the allow-list is not the shell. *)
Lemma safe_not_bash toolName :
  SAFE_TOOLS_has toolName = true →
  bool_decide (toolName = Some (js "Bash")) = false.
Proof.
  intros H. apply bool_decide_eq_false. intros ->.
  vm_compute in H. discriminate.
Qed.

(** A pre-tool-use event, by the flags and the tool. *)
Lemma run_question_block d s :
  hook_event_name d = Some (js "PreToolUse") →
  is_Some (question_flag s (session_of d)) →
  SAFE_TOOLS_has (toolName_of d) = false →
  result_of (main (Parsed d) s) =
  (2, (files s, [], [ErrorObject question_block_message])).
Proof.
  intros [E1 E2]%event_PreToolUse [q Hq] Hsafe.
  unfold RuleManager.question_flag in Hq.
  apply main_spec. intros p0 Hp.
  unfold RuleManager.handleHook. rewrite E1, E2.
  unfold onPreToolUse. wp_run. rewrite Hq, Hsafe. by wp_run.
Qed.

Lemma run_question_safe d s :
  hook_event_name d = Some (js "PreToolUse") →
  is_Some (question_flag s (session_of d)) →
  SAFE_TOOLS_has (toolName_of d) = true →
  result_of (main (Parsed d) s) = (0, (files s, [EmptyObject], [])).
Proof.
  intros [E1 E2]%event_PreToolUse [q Hq] Hsafe.
  unfold RuleManager.question_flag in Hq.
  apply main_spec. intros p0 Hp.
  unfold RuleManager.handleHook. rewrite E1, E2.
  unfold onPreToolUse. wp_run. rewrite Hq, Hsafe. wp_run.
  rewrite (safe_not_bash _ Hsafe). by wp_run.
Qed.

Lemma run_commit_gate d s cmd :
  hook_event_name d = Some (js "PreToolUse") →
  question_flag s (session_of d) = None →
  toolName_of d = Some (js "Bash") →
  command_of (toolParams_of d) = Some cmd →
  isGitCommit cmd = true →
  result_of (main (Parsed d) s) =
  match commit_flag s (session_of d) with
  | Some _ => (0, (files s, [EmptyObject], []))
  | None => (2, (files s, [], [ErrorObject commit_block_message]))
  end.
Proof.
  intros [E1 E2]%event_PreToolUse Hq Htool Hcmd Hgit.
  unfold RuleManager.question_flag in Hq.
  unfold RuleManager.commit_flag.
  assert (truthy (Some cmd) = true) as Htruthy.
  { destruct cmd; [by vm_compute in Hgit|done]. }
  apply main_spec. intros p0 Hp.
  unfold RuleManager.handleHook. rewrite E1, E2.
  unfold onPreToolUse. wp_run. rewrite Hq. wp_run.
  rewrite Htool, Hcmd, Htruthy. cbn [ToString]. rewrite Hgit.
  rewrite bool_decide_eq_true_2 by done. wp_run.
  destruct (files s !! getCommitPath _); by wp_run.
Qed.

Lemma run_no_gate d s :
  hook_event_name d = Some (js "PreToolUse") →
  question_flag s (session_of d) = None →
  toolName_of d ≠ Some (js "Bash")
  ∨ truthy (command_of (toolParams_of d)) = false
  ∨ isGitCommit (ToString (command_of (toolParams_of d))) = false →
  result_of (main (Parsed d) s) = (0, (files s, [EmptyObject], [])).
Proof.
  intros [E1 E2]%event_PreToolUse Hq Hno.
  unfold RuleManager.question_flag in Hq.
  apply main_spec. intros p0 Hp.
  unfold RuleManager.handleHook. rewrite E1, E2.
  unfold onPreToolUse. wp_run. rewrite Hq. wp_run.
  destruct Hno as [Hno|[Hno|Hno]].
  - rewrite bool_decide_eq_false_2 by done. by wp_run.
  - rewrite Hno, andb_false_r. by wp_run.
  - rewrite Hno. destruct (_ && _); by wp_run.
Qed.

(** Checking a tool call changes no marker file. *)
Lemma run_PreToolUse_files d s :
  hook_event_name d = Some (js "PreToolUse") →
  files (store_after (main (Parsed d) s)) = files s.
Proof.
  intros H.
  destruct (question_flag s (session_of d)) as [q|] eqn:Hq.
  - destruct (SAFE_TOOLS_has (toolName_of d)) eqn:Hsafe.
    + eapply files_of_result, run_question_safe; eauto.
    + eapply files_of_result, run_question_block; eauto.
  - destruct (decide (toolName_of d = Some (js "Bash"))) as [Hb|Hb];
      [|by eapply files_of_result, run_no_gate; eauto].
    destruct (truthy (command_of (toolParams_of d))) eqn:Ht;
      [|by eapply files_of_result, run_no_gate; eauto].
    destruct (isGitCommit (ToString (command_of (toolParams_of d))))
      eqn:Hg; [|by eapply files_of_result, run_no_gate; eauto 6].
    destruct (command_of (toolParams_of d)) as [cmd|] eqn:Hcmd; [|done].
    pose proof (run_commit_gate d s cmd H Hq Hb Hcmd Hg) as Hr.
    destruct (commit_flag s (session_of d));
      by eapply files_of_result, Hr.
Qed.
End Events.

(** ** The properties of the specification *)

(** C1.  In a session whose question flag is set, a pre-tool-use event is
    refused when its tool is not in the allow-list of read-only tools
    (Read, Grep, Glob, LS, WebFetch, WebSearch, ListMcpResourcesTool,
    ReadMcpResourceTool, TodoRead): an error body goes to the standard error
    channel and the exit code is 2, whatever the commit-approval flag is.  When
    the tool is in the allow-list the event is allowed: [{}] goes to the
    standard output channel and the exit code is 0. *)
Theorem question_blocks_all_but_read_only_tools
    (homedir : jsstring) (enableLogging : bool) (d : hook_data) (s : storage) :
  hook_event_name d = Some (js "PreToolUse") →
  is_Some (question_flag homedir s (session_of d)) →
  let r := main homedir enableLogging (Parsed d) s in
  SAFE_TOOLS =
    js <$> ["Read"; "Grep"; "Glob"; "LS"; "WebFetch"; "WebSearch";
            "ListMcpResourcesTool"; "ReadMcpResourceTool"; "TodoRead"]%string
  ∧ (SAFE_TOOLS_has (toolName_of d) = false →
     exit_code r = 2 ∧ printed r = []
     ∧ complained r = [ErrorObject question_block_message])
  ∧ (SAFE_TOOLS_has (toolName_of d) = true →
     exit_code r = 0 ∧ printed r = [EmptyObject] ∧ complained r = []).
Proof.
  intros Hev Hq r. split; [by vm_compute|]. split; intros Hsafe.
  - destruct (result_of_eq r _ _ _ _
                (run_question_block homedir enableLogging d s Hev Hq Hsafe))
      as (? & _ & ? & ?). done.
  - destruct (result_of_eq r _ _ _ _
                (run_question_safe homedir enableLogging d s Hev Hq Hsafe))
      as (? & _ & ? & ?). done.
Qed.

Lemma question_blocks_all_but_read_only_tools_witness :
  let s := store_of [(getQuestionPath home (js "s1"), js "what is x?");
                     (getCommitPath home (js "s1"), js "fix bug")] in
  exit_code (main home true (Parsed (tool_call "s1" "Write" None)) s) = 2
  ∧ exit_code (main home true (Parsed (tool_call "s1" "Read" None)) s) = 0.
Proof.
  intros s. split.
  - apply (question_blocks_all_but_read_only_tools
             home true (tool_call "s1" "Write" None) s).
    + reflexivity.
    + eexists. vm_compute. reflexivity.
    + vm_compute. reflexivity.
  - apply (question_blocks_all_but_read_only_tools
             home true (tool_call "s1" "Read" None) s).
    + reflexivity.
    + eexists. vm_compute. reflexivity.
    + vm_compute. reflexivity.
Defined.

Lemma run_PreToolUse_calls homedir enableLogging calls s :
  Forall is_pre_tool_use calls →
  files (run_all homedir enableLogging calls s) = files s.
Proof.
  intros H. revert s. unfold run_all.
  induction H as [|input calls (d & -> & Hev) _ IH]; intros s; [done|].
  cbn [foldl]. rewrite IH. by apply run_PreToolUse_files.
Qed.

(** C2.  With no question pending, a pre-tool-use event of the shell tool
    whose command is a git commit is refused with exit code 2 when the
    commit-approval flag of the session is absent, and allowed with exit code
    0 when it is set.  The flag stays through any number of tool calls: the
    same command is still allowed after them; and after a session-end or
    session-start event of the session it is refused again. *)
Theorem commit_needs_approval
    (homedir : jsstring) (enableLogging : bool) (d : hook_data) (s : storage)
    (cmd : jsstring) :
  hook_event_name d = Some (js "PreToolUse") →
  toolName_of d = Some (js "Bash") →
  command_of (toolParams_of d) = Some cmd →
  isGitCommit cmd = true →
  question_flag homedir s (session_of d) = None →
  let run := main homedir enableLogging in
  (commit_flag homedir s (session_of d) = None →
   exit_code (run (Parsed d) s) = 2 ∧ printed (run (Parsed d) s) = []
   ∧ complained (run (Parsed d) s) = [ErrorObject commit_block_message])
  ∧ (is_Some (commit_flag homedir s (session_of d)) →
     (exit_code (run (Parsed d) s) = 0
      ∧ printed (run (Parsed d) s) = [EmptyObject]
      ∧ complained (run (Parsed d) s) = [])
     ∧ ∀ calls, Forall is_pre_tool_use calls →
         let s' := run_all homedir enableLogging calls s in
         commit_flag homedir s' (session_of d)
         = commit_flag homedir s (session_of d)
         ∧ exit_code (run (Parsed d) s') = 0)
  ∧ (∀ b, is_boundary_of (session_of d) b →
       let s' := store_after (run (Parsed b) s) in
       commit_flag homedir s' (session_of d) = None
       ∧ exit_code (run (Parsed d) s') = 2).
Proof.
  intros Hev Htool Hcmd Hgit Hq run.
  assert (∀ s0, question_flag homedir s0 (session_of d) = None →
            result_of (run (Parsed d) s0) =
            match commit_flag homedir s0 (session_of d) with
            | Some _ => (0, (files s0, [EmptyObject], []))
            | None => (2, (files s0, [], [ErrorObject commit_block_message]))
            end) as Hgate
    by (intros; by eapply run_commit_gate).
  split_and!.
  - intros Hc. specialize (Hgate s Hq). rewrite Hc in Hgate.
    by apply result_of_eq in Hgate as (? & _ & ? & ?).
  - intros [c Hc]. split.
    + specialize (Hgate s Hq). rewrite Hc in Hgate.
      by apply result_of_eq in Hgate as (? & _ & ? & ?).
    + intros calls Hcalls s'.
      assert (files s' = files s) as Hfiles
        by by apply run_PreToolUse_calls.
      unfold commit_flag, question_flag in *. rewrite Hfiles.
      split; [done|].
      specialize (Hgate s'). rewrite Hfiles, Hc in Hgate.
      by apply result_of_eq in Hgate as (? & _).
  - intros b [Hb Hsid] s'.
    pose proof (run_boundary homedir enableLogging b s Hb) as Hr.
    apply files_of_result in Hr. fold run in Hr. fold s' in Hr.
    rewrite Hsid in Hr.
    assert (commit_flag homedir s' (session_of d) = None) as Hc'.
    { unfold commit_flag. rewrite Hr. apply lookup_delete_eq. }
    assert (question_flag homedir s' (session_of d) = None) as Hq'.
    { unfold question_flag in *. rewrite Hr.
      apply lookup_delete_None. right. apply lookup_delete_eq. }
    split; [done|].
    specialize (Hgate s' Hq'). rewrite Hc' in Hgate.
    by apply result_of_eq in Hgate as (? & _).
Qed.

Lemma commit_needs_approval_witness :
  let d := tool_call "s2" "Bash" (Some (js "git commit -m x")) in
  let approved := store_of [(getCommitPath home (js "s2"), js "fix bug")] in
  exit_code (main home false (Parsed d) (store_of [])) = 2
  ∧ exit_code (main home false (Parsed d) approved) = 0
  ∧ exit_code
      (main home false (Parsed d)
         (run_all home false
            [Parsed (tool_call "s2" "Write" None); Parsed d] approved)) = 0
  ∧ exit_code
      (main home false (Parsed d)
         (store_after (main home false (Parsed (event "Stop" "s2" None))
                         approved))) = 2.
Proof.
  intros d approved.
  assert (∀ s, question_flag home s (session_of d) = None →
            _) as H
    by exact (λ s, commit_needs_approval home false d s
                     (js "git commit -m x")
                     eq_refl eq_refl eq_refl eq_refl).
  split_and!.
  - apply (H (store_of [])); reflexivity.
  - apply (H approved); [reflexivity|]. eexists. vm_compute. reflexivity.
  - refine (proj2 (proj2 (proj1 (proj2 (H approved eq_refl)) _)
                     [Parsed (tool_call "s2" "Write" None); Parsed d] _)).
    + eexists. vm_compute. reflexivity.
    + repeat constructor; eexists; split; reflexivity.
  - refine (proj2 (proj2 (proj2 (H approved eq_refl))
                     (event "Stop" "s2" None) _)).
    split; [left|]; reflexivity.
Defined.

(** C3.  After a session-end (Stop) or session-start event, for every
    session id and whatever the flags were before, neither the question flag
    nor the commit-approval flag of the session is present; [{}] has been
    printed, nothing went to the standard error channel and the exit code is
    0, also when one or both marker files were missing already. *)
Theorem session_boundary_clears_flags
    (homedir : jsstring) (enableLogging : bool) (d : hook_data) (s : storage) :
  hook_event_name d = Some (js "Stop")
  ∨ hook_event_name d = Some (js "SessionStart") →
  let r := main homedir enableLogging (Parsed d) s in
  question_flag homedir (store_after r) (session_of d) = None
  ∧ commit_flag homedir (store_after r) (session_of d) = None
  ∧ printed r = [EmptyObject] ∧ complained r = [] ∧ exit_code r = 0.
Proof.
  intros Hev r.
  destruct (result_of_eq r _ _ _ _
              (run_boundary homedir enableLogging d s Hev))
    as (Hcode & Hfiles & Hout & Herr).
  unfold question_flag, commit_flag. rewrite Hfiles. split_and!; try done.
  - apply lookup_delete_None. right. apply lookup_delete_eq.
  - apply lookup_delete_eq.
Qed.

Lemma session_boundary_clears_flags_witness :
  let s := store_of [(getQuestionPath home (js "s1"), js "what is x?")] in
  let r := main home true (Parsed (event "SessionStart" "s1" None)) s in
  question_flag home s (js "s1") = Some (js "what is x?")
  ∧ commit_flag home s (js "s1") = None
  ∧ question_flag home (store_after r) (js "s1") = None
  ∧ commit_flag home (store_after r) (js "s1") = None
  ∧ complained r = [] ∧ exit_code r = 0.
Proof.
  intros s r.
  destruct (session_boundary_clears_flags
              home true (event "SessionStart" "s1" None) s)
    as (Hq & Hc & _ & Herr & Hcode).
  - right. reflexivity.
  - split_and!; [by vm_compute | by vm_compute | exact Hq | exact Hc
                 | exact Herr | exact Hcode].
Defined.







(** The flags have to stay on one line: [.] does not match a line
    terminator, so flags on two lines are not seen. *)
Example git_commit_flags_on_two_lines :
  isGitCommit
    (js "git -c a=b " ++ [92%N; 10%N] ++ js "  -c c=d commit -m x") = false.
Proof. by vm_compute. Qed.

(** C10.  The commit gate is for the tool named exactly [Bash] and for
    parameters with a [command]: with no question pending, a pre-tool-use
    event whose tool has another name, or whose parameters have no command,
    is allowed with exit code 0, whatever the command text and the
    commit-approval flag are. *)
Theorem commit_gate_is_for_bash_commands_only
    (homedir : jsstring) (enableLogging : bool) (d : hook_data) (s : storage) :
  hook_event_name d = Some (js "PreToolUse") →
  question_flag homedir s (session_of d) = None →
  toolName_of d ≠ Some (js "Bash") ∨ command_of (toolParams_of d) = None →
  let r := main homedir enableLogging (Parsed d) s in
  exit_code r = 0 ∧ printed r = [EmptyObject] ∧ complained r = [].
Proof.
  intros Hev Hq Hno r.
  assert (result_of r = (0, (files s, [EmptyObject], []))) as Hr.
  { apply run_no_gate; [done..|].
    destruct Hno as [?|Hno]; [by left|right; left]. by rewrite Hno. }
  by apply result_of_eq in Hr as (? & _ & ? & ?).
Qed.

Lemma commit_gate_is_for_bash_commands_only_witness :
  isGitCommit (js "git commit -m x") = true
  ∧ commit_flag home (store_of []) (js "s3") = None
  ∧ exit_code
      (main home false
         (Parsed (tool_call "s3" "bash" (Some (js "git commit -m x"))))
         (store_of [])) = 0
  ∧ exit_code
      (main home false (Parsed (tool_call "s3" "Bash" None)) (store_of []))
    = 0.
Proof.
  split_and!; [reflexivity | reflexivity | |].
  - apply (commit_gate_is_for_bash_commands_only home false
             (tool_call "s3" "bash" (Some (js "git commit -m x")))
             (store_of [])).
    + reflexivity.
    + reflexivity.
    + left. discriminate.
  - apply (commit_gate_is_for_bash_commands_only home false
             (tool_call "s3" "Bash" None) (store_of [])).
    + reflexivity.
    + reflexivity.
    + right. reflexivity.
Defined.

(** ** Every invocation, by cases *)

Section Cases.
Variable homedir : jsstring.
Variable enableLogging : bool.
Implicit Types (d : hook_data) (s : storage).

Local Abbreviation main := (main homedir enableLogging).

Lemma is_event_true d name :
  is_event d name = true → hook_event_name d = Some (js name).
Proof. apply bool_decide_eq_true. Qed.

(** The prompt of an accepted prompt-submitted event is a string. *)
Lemma question_prefix_prompt (v : option jsstring) :
  isQuestionPrefix v = true → ∃ p rest, v = Some p ∧ question_prompt p rest.
Proof.
  destruct v as [p|]; [|by vm_compute].
  intros [rest ?]%isQuestionPrefix_iff. eauto.
Qed.

Lemma commit_prefix_prompt (v : option jsstring) :
  isCommitPrefix v = true → ∃ p rest, v = Some p ∧ commit_prompt p rest.
Proof.
  destruct v as [p|]; [|by vm_compute].
  intros [rest ?]%isCommitPrefix_iff. eauto.
Qed.

(** A prompt-submitted event ends normally, with one object printed. *)
Lemma run_prompt_cases d s :
  hook_event_name d = Some (js "UserPromptSubmit") →
  ∃ f v, result_of (main (Parsed d) s) = (0, (f, [v], []))
         ∧ (v = EmptyObject ∨ v = AdditionalContext question_context).
Proof.
  intros Hev.
  destruct (isQuestionPrefix (prompt d)) eqn:Q1.
  { apply question_prefix_prompt in Q1 as (p & rest & Hp & Hq).
    eexists _, _. split; [by eapply run_question|by right]. }
  destruct (isCommitPrefix (prompt d)) eqn:Q2.
  { apply commit_prefix_prompt in Q2 as (p & rest & Hp & Hc).
    eexists _, _. split; [by eapply run_commit|by left]. }
  eexists _, _. split; [by eapply run_plain_prompt|by left].
Qed.



(** The two marker files of a session are different files. *)
Lemma marker_paths_differ sid :
  getQuestionPath homedir sid ≠ getCommitPath homedir sid.
Proof.
  unfold getQuestionPath, getCommitPath. cbn [path_join].
  intros H. apply app_inv_head in H. injection H as H.
  apply app_inv_head in H. by vm_compute in H.
Qed.
End Cases.








(** ** Logging is observational *)

(** X1.  With or without [-log], an invocation ends with the same exit code,
    the same marker files and the same output on both channels. *)
Lemma logging_changes_nothing_observed
    (homedir : jsstring) (enableLogging : bool) (input : stdin) (s : storage) :
  result_of (main homedir enableLogging input s)
  = result_of (main homedir false input s).
Proof.
  destruct input as [message|d]; [by rewrite !run_unparseable|].
  destruct (is_event d "UserPromptSubmit") eqn:E1.
  { apply is_event_true in E1.
    destruct (isQuestionPrefix (prompt d)) eqn:Q1.
    { apply question_prefix_prompt in Q1 as (p & rest & Hp & Hq).
      by rewrite !(run_question _ _ d s p rest). }
    destruct (isCommitPrefix (prompt d)) eqn:Q2.
    { apply commit_prefix_prompt in Q2 as (p & rest & Hp & Hc).
      by rewrite !(run_commit _ _ d s p rest). }
    by rewrite !run_plain_prompt. }
  destruct (is_event d "PreToolUse") eqn:E2.
  { apply is_event_true in E2.
    destruct (question_flag homedir s (session_of d)) as [q|] eqn:Hq.
    - destruct (SAFE_TOOLS_has (toolName_of d)) eqn:Hsafe.
      + by rewrite !run_question_safe by (done || by rewrite Hq).
      + by rewrite !run_question_block by (done || by rewrite Hq).
    - destruct (decide (toolName_of d = Some (js "Bash"))) as [Hb|Hb];
        [|by rewrite !run_no_gate by eauto].
      destruct (truthy (command_of (toolParams_of d))) eqn:Ht;
        [|by rewrite !run_no_gate by eauto].
      destruct (isGitCommit (ToString (command_of (toolParams_of d))))
        eqn:Hg; [|by rewrite !run_no_gate by eauto 6].
      destruct (command_of (toolParams_of d)) as [cmd|] eqn:Hcmd; [|done].
      by rewrite !(run_commit_gate _ _ d s cmd). }
  destruct (is_event d "Stop") eqn:E3.
  { apply is_event_true in E3. by rewrite !run_boundary by by left. }
  destruct (is_event d "SessionStart") eqn:E4.
  { apply is_event_true in E4. by rewrite !run_boundary by by right. }
  by rewrite !run_other.
Qed.

(** ** The scenarios of the specification *)

(** A question, a write tool refused, a read tool allowed, the session ended,
    the write tool allowed. *)
Example scenario_question :
  let run d s := main home true (Parsed d) s in
  let asked :=
    run (event "UserPromptSubmit" "s1" (Some (js "Q: what is x?")))
        (store_of []) in
  let write := tool_call "s1" "Write" None in
  let read := tool_call "s1" "Read" None in
  let ended := run (event "Stop" "s1" None) (store_after asked) in
  question_flag home (store_after asked) (js "s1") = Some (js "what is x?")
  ∧ printed asked = [AdditionalContext question_context]
  ∧ exit_code (run write (store_after asked)) = 2
  ∧ exit_code (run read (store_after asked)) = 0
  ∧ question_flag home (store_after ended) (js "s1") = None
  ∧ commit_flag home (store_after ended) (js "s1") = None
  ∧ exit_code (run write (store_after ended)) = 0.
Proof. by vm_compute. Qed.

(** A commit approved in one session, and asked for in a fresh one. *)
Example scenario_commit :
  let run d s := main home true (Parsed d) s in
  let cmd := js "git commit -m " ++ [34%N] ++ js "x" ++ [34%N] in
  let approved :=
    run (event "UserPromptSubmit" "s2" (Some (js "commit! fix bug")))
        (store_of []) in
  commit_flag home (store_after approved) (js "s2") = Some (js "fix bug")
  ∧ exit_code (run (tool_call "s2" "Bash" (Some cmd)) (store_after approved))
    = 0
  ∧ exit_code (run (tool_call "s3" "Bash" (Some cmd)) (store_after approved))
    = 2.
Proof. by vm_compute. Qed.

(** ** Further properties of the handler *)

Lemma is_event_false d name :
  hook_event_name d ≠ Some (js name) → is_event d name = false.
Proof. apply bool_decide_eq_false_2. Qed.

(** X2.  An event of any other kind, also one with no event name, passes
    through: [{}] is printed, the exit code is 0 and no marker file
    changes.  The names are compared exactly, so [stop] in lower case is
    such an event and clears nothing. *)
Theorem other_events_pass_through
    (homedir : jsstring) (enableLogging : bool) (d : hook_data) (s : storage) :
  hook_event_name d ≠ Some (js "UserPromptSubmit") →
  hook_event_name d ≠ Some (js "PreToolUse") →
  hook_event_name d ≠ Some (js "Stop") →
  hook_event_name d ≠ Some (js "SessionStart") →
  let r := main homedir enableLogging (Parsed d) s in
  exit_code r = 0 ∧ printed r = [EmptyObject] ∧ complained r = []
  ∧ files (store_after r) = files s.
Proof.
  intros E1%is_event_false E2%is_event_false E3%is_event_false
         E4%is_event_false r.
  destruct (result_of_eq r _ _ _ _
              (run_other homedir enableLogging d s E1 E2 E3 E4))
    as (? & ? & ? & ?). done.
Qed.

Lemma other_events_pass_through_witness :
  let s := store_of [(getQuestionPath home (js "s1"), js "what is x?")] in
  let r := main home true (Parsed (event "stop" "s1" None)) s in
  exit_code r = 0 ∧ printed r = [EmptyObject] ∧ complained r = []
  ∧ files (store_after r) = files s.
Proof.
  intros s r.
  apply (other_events_pass_through home true (event "stop" "s1" None) s);
    discriminate.
Defined.



(** The decision on a tool call, by cases. *)
Lemma run_PreToolUse_decision homedir enableLogging d s :
  hook_event_name d = Some (js "PreToolUse") →
  let sid := session_of d in
  let question_blocks :=
    is_Some (question_flag homedir s sid)
    ∧ SAFE_TOOLS_has (toolName_of d) = false in
  let commit_blocks :=
    question_flag homedir s sid = None
    ∧ toolName_of d = Some (js "Bash")
    ∧ (∃ cmd, command_of (toolParams_of d) = Some cmd
              ∧ isGitCommit cmd = true)
    ∧ commit_flag homedir s sid = None in
  let result := result_of (main homedir enableLogging (Parsed d) s) in
  (question_blocks
   ∧ result = (2, (files s, [], [ErrorObject question_block_message])))
  ∨ (commit_blocks
     ∧ result = (2, (files s, [], [ErrorObject commit_block_message])))
  ∨ (¬ question_blocks ∧ ¬ commit_blocks
     ∧ result = (0, (files s, [EmptyObject], []))).
Proof.
  intros Hev sid QB CB result. subst QB CB result sid.
  destruct (question_flag homedir s (session_of d)) as [q|] eqn:Hq.
  { destruct (SAFE_TOOLS_has (toolName_of d)) eqn:Hsafe.
    - right; right. split_and!.
      + by intros [_ ?].
      + by intros [? _].
      + apply run_question_safe; [done| |done]. by rewrite Hq.
    - left. split; [done|].
      apply run_question_block; [done| |done]. by rewrite Hq. }
  assert (¬ (is_Some (@None jsstring)
             ∧ SAFE_TOOLS_has (toolName_of d) = false)) as HnQ
    by (by intros [[? ?] _]).
  destruct (decide (toolName_of d = Some (js "Bash"))) as [Hb|Hb];
    [|right; right; split_and!; [done|by intros (_ & ? & _)|];
      apply run_no_gate; by eauto].
  destruct (command_of (toolParams_of d)) as [cmd|] eqn:Hcmd;
    [|right; right; split_and!; [done|by intros (_ & _ & (? & ? & _) & _)|];
      apply run_no_gate; [done..|]; right; left; by rewrite Hcmd].
  destruct (isGitCommit cmd) eqn:Hg;
    [|right; right; split_and!;
      [done|intros (_ & _ & (? & [= <-] & ?) & _); congruence|];
      apply run_no_gate; [done..|]; right; right; by rewrite Hcmd].
  rewrite (run_commit_gate homedir enableLogging d s cmd Hev Hq Hb Hcmd Hg).
  destruct (commit_flag homedir s (session_of d)) as [c|] eqn:Hc.
  - right; right. split_and!; [done|by intros (_ & _ & _ & ?)|done].
  - right; left. split; [|done]. split_and!; eauto.
Qed.

(** X4.  The complete decision on a tool call.  A pre-tool-use event is
    refused with exit code 2 in two situations and in no other: a question
    is pending and the tool is not in the allow-list; or no question is
    pending, the tool is [Bash], its command is a git commit and the
    commit-approval flag is absent.  Each refusal has its own message on
    the standard error channel.  In every other situation, such as a
    [Bash] command that is not a git commit, the exit code is 0 and [{}] is
    printed. *)
Theorem tool_call_is_refused_in_two_cases_only
    (homedir : jsstring) (enableLogging : bool) (d : hook_data) (s : storage) :
  hook_event_name d = Some (js "PreToolUse") →
  let r := main homedir enableLogging (Parsed d) s in
  let sid := session_of d in
  let question_blocks :=
    is_Some (question_flag homedir s sid)
    ∧ SAFE_TOOLS_has (toolName_of d) = false in
  let commit_blocks :=
    question_flag homedir s sid = None
    ∧ toolName_of d = Some (js "Bash")
    ∧ (∃ cmd, command_of (toolParams_of d) = Some cmd
              ∧ isGitCommit cmd = true)
    ∧ commit_flag homedir s sid = None in
  (exit_code r = 2 ↔ question_blocks ∨ commit_blocks)
  ∧ (exit_code r = 0 ↔ ¬ (question_blocks ∨ commit_blocks))
  ∧ (question_blocks →
     printed r = []
     ∧ complained r = [ErrorObject question_block_message])
  ∧ (commit_blocks →
     printed r = [] ∧ complained r = [ErrorObject commit_block_message])
  ∧ (exit_code r = 0 → printed r = [EmptyObject] ∧ complained r = []).
Proof.
  intros Hev r sid QB CB.
  destruct (run_PreToolUse_decision homedir enableLogging d s Hev)
    as [[HQ Hr]|[[HC Hr]|(HnQ & HnC & Hr)]];
    apply result_of_eq in Hr as (Hcode & _ & Hout & Herr);
    fold r in Hcode, Hout, Herr; fold sid QB in HQ || fold sid CB in HC
    || (fold sid QB in HnQ; fold sid CB in HnC);
    rewrite Hcode, Hout, Herr.
  - split_and!; try done.
    + split; [by left|done].
    + split; [done|]. intros H. destruct H. by left.
    + intros (HqN & _). destruct HQ as [[? Hq] _]. congruence.
  - split_and!; try done.
    + split; [by right|done].
    + split; [done|]. intros H. destruct H. by right.
    + intros [[? Hq] _]. destruct HC as (HqN & _). congruence.
  - split_and!; try done.
    + split; [done|]. by intros [?|?].
    + split; [|done]. by intros _ [?|?].
Qed.

Lemma tool_call_is_refused_in_two_cases_only_witness :
  let asked := store_of [(getQuestionPath home (js "s1"), js "what is x?")] in
  exit_code (main home false
               (Parsed (tool_call "s1" "Bash" (Some (js "git status"))))
               (store_of [])) = 0
  ∧ complained (main home false (Parsed (tool_call "s1" "Edit" None)) asked)
    = [ErrorObject question_block_message].
Proof.
  intros asked. split.
  - apply (tool_call_is_refused_in_two_cases_only home false
             (tool_call "s1" "Bash" (Some (js "git status"))) (store_of [])
             eq_refl).
    intros [[[? Hq] _]|(_ & _ & (cmd & [= <-] & Hg) & _)]; discriminate.
  - apply (tool_call_is_refused_in_two_cases_only home false
             (tool_call "s1" "Edit" None) asked eq_refl).
    split; [eexists|]; reflexivity.
Defined.

(** X5.  Nothing but a refusal is ever written to the standard error
    channel: after any invocation that channel is empty, or the invocation
    was a pre-tool-use event that ended with exit code 2 and the channel
    holds one of the two refusal messages.  In particular the last-resort
    report [Fatal error: ...] is never written. *)
Theorem stderr_holds_refusals_only
    (homedir : jsstring) (enableLogging : bool) (input : stdin) (s : storage) :
  let r := main homedir enableLogging input s in
  complained r = []
  ∨ (is_pre_tool_use input ∧ exit_code r = 2
     ∧ (complained r = [ErrorObject question_block_message]
        ∨ complained r = [ErrorObject commit_block_message])).
Proof.
  intros r.
  destruct input as [message|d].
  { left. by destruct (result_of_eq r _ _ _ _
                         (run_unparseable homedir enableLogging message s))
      as (_ & _ & _ & ?). }
  destruct (is_event d "UserPromptSubmit") eqn:E1.
  { apply is_event_true in E1. left.
    destruct (run_prompt_cases homedir enableLogging d s E1)
      as (f & v & Hr & _).
    by apply result_of_eq in Hr as (_ & _ & _ & ?). }
  destruct (is_event d "PreToolUse") eqn:E2.
  { apply is_event_true in E2.
    destruct (run_PreToolUse_decision homedir enableLogging d s E2)
      as [[_ Hr]|[[_ Hr]|(_ & _ & Hr)]];
      apply result_of_eq in Hr as (Hcode & _ & _ & Herr).
    - right. split_and!; [by exists d|done|by left].
    - right. split_and!; [by exists d|done|by right].
    - by left. }
  destruct (is_event d "Stop") eqn:E3.
  { apply is_event_true in E3. left.
    by destruct (result_of_eq r _ _ _ _
                   (run_boundary homedir enableLogging d s (or_introl E3)))
      as (_ & _ & _ & ?). }
  destruct (is_event d "SessionStart") eqn:E4.
  { apply is_event_true in E4. left.
    by destruct (result_of_eq r _ _ _ _
                   (run_boundary homedir enableLogging d s (or_intror E4)))
      as (_ & _ & _ & ?). }
  left.
  by destruct (result_of_eq r _ _ _ _
                 (run_other homedir enableLogging d s E1 E2 E3 E4))
    as (_ & _ & _ & ?).
Qed.

Ltac names_clash :=
  match goal with
  | H1 : hook_event_name ?d = Some _, H2 : hook_event_name ?d = Some _ |- _ =>
      rewrite H1 in H2; by vm_compute in H2
  | H1 : is_event ?d _ = false, H2 : hook_event_name ?d = Some _ |- _ =>
      unfold is_event in H1; rewrite H2 in H1; by vm_compute in H1
  end.

(** What an invocation does to the marker files. *)
Lemma run_files homedir enableLogging input s :
  let f' := files (store_after (main homedir enableLogging input s)) in
  let sid := session_of_input input in
  (f' = files s ∧ ¬ is_boundary input ∧ ¬ is_marked_prompt input)
  ∨ (is_marked_prompt input
     ∧ ∃ t, f' = <[getQuestionPath homedir sid := t]> (files s)
            ∨ f' = <[getCommitPath homedir sid := t]> (files s))
  ∨ (is_boundary input
     ∧ f' = delete (getCommitPath homedir sid)
              (delete (getQuestionPath homedir sid) (files s))).
Proof.
  intros f' sid. subst f' sid.
  destruct input as [message|d].
  { left. split_and!.
    - eapply files_of_result, run_unparseable.
    - by intros (? & ? & _).
    - by intros (? & ? & _). }
  cbn [session_of_input].
  destruct (is_event d "UserPromptSubmit") eqn:E1.
  { apply is_event_true in E1.
    destruct (isQuestionPrefix (prompt d)) eqn:Q1.
    { pose proof Q1 as (p & rest & Hp & Hq)%question_prefix_prompt.
      right; left. split; [exists d; by eauto|].
      eexists. left. eapply files_of_result. by eapply run_question. }
    destruct (isCommitPrefix (prompt d)) eqn:Q2.
    { pose proof Q2 as (p & rest & Hp & Hc)%commit_prefix_prompt.
      right; left. split; [exists d; by eauto|].
      eexists. right. eapply files_of_result. by eapply run_commit. }
    left. split_and!.
    - eapply files_of_result. by eapply run_plain_prompt.
    - intros (? & [= <-] & [?|?]); names_clash.
    - intros (? & [= <-] & _ & [?|?]); congruence. }
  destruct (is_event d "PreToolUse") eqn:E2.
  { apply is_event_true in E2. left. split_and!.
    - by apply run_PreToolUse_files.
    - intros (? & [= <-] & [?|?]); names_clash.
    - intros (? & [= <-] & ? & _); names_clash. }
  destruct (is_event d "Stop") eqn:E3.
  { apply is_event_true in E3. right; right.
    split; [exists d; by eauto|].
    eapply files_of_result. apply run_boundary. by left. }
  destruct (is_event d "SessionStart") eqn:E4.
  { apply is_event_true in E4. right; right.
    split; [exists d; by eauto|].
    eapply files_of_result. apply run_boundary. by right. }
  left. split_and!.
  - eapply files_of_result. by apply run_other.
  - intros (? & [= <-] & [H|H]); names_clash.
  - intros (? & [= <-] & H & _); names_clash.
Qed.

(** X6.  Marker files change through two kinds of input only: a
    prompt-submitted event whose prompt matches a convention, and a
    session-end or session-start event.  Every other invocation (a tool
    check, a plain prompt, any other event, unparseable input) leaves all
    of them as they were. *)
Theorem flags_change_by_marked_prompts_and_boundaries_only
    (homedir : jsstring) (enableLogging : bool) (input : stdin) (s : storage) :
  ¬ is_marked_prompt input → ¬ is_boundary input →
  files (store_after (main homedir enableLogging input s)) = files s.
Proof.
  intros Hm Hb.
  destruct (run_files homedir enableLogging input s)
    as [(? & _)|[(? & _)|(? & _)]]; done.
Qed.

Lemma flags_change_by_marked_prompts_and_boundaries_only_witness :
  let s := store_of [(getQuestionPath home (js "s1"), js "what is x?")] in
  files (store_after (main home true (Unparseable (js "bad")) s)) = files s
  ∧ files (store_after
             (main home true
                (Parsed (event "UserPromptSubmit" "s1" (Some (js "go on"))))
                s)) = files s.
Proof.
  intros s. split.
  - apply flags_change_by_marked_prompts_and_boundaries_only.
    + by intros (? & ? & _).
    + by intros (? & ? & _).
  - apply flags_change_by_marked_prompts_and_boundaries_only.
    + intros (? & [= <-] & _ & [?|?]); discriminate.
    + intros (? & [= <-] & [?|?]); discriminate.
Defined.

Lemma run_files_elsewhere homedir enableLogging input s file :
  file ≠ getQuestionPath homedir (session_of_input input) →
  file ≠ getCommitPath homedir (session_of_input input) →
  files (store_after (main homedir enableLogging input s)) !! file
  = files s !! file.
Proof.
  intros Hq Hc.
  destruct (run_files homedir enableLogging input s)
    as [(-> & _)|[(_ & t & [-> | ->])|(_ & ->)]]; [done|..].
  - by rewrite lookup_insert_ne.
  - by rewrite lookup_insert_ne.
  - by rewrite !lookup_delete_ne.
Qed.



(** No input but a session boundary removes a marker file. *)
Lemma run_keeps_files homedir enableLogging input s file :
  ¬ is_boundary input →
  is_Some (files s !! file) →
  is_Some (files (store_after (main homedir enableLogging input s)) !! file).
Proof.
  intros Hb Hfile.
  destruct (run_files homedir enableLogging input s)
    as [(-> & _)|[(_ & t & [-> | ->])|(? & _)]]; try done.
  - apply lookup_insert_is_Some'. by right.
  - apply lookup_insert_is_Some'. by right.
Qed.

(** X8.  A flag that is set stays set until a session boundary: through
    any sequence of invocations none of which is a session-end or
    session-start event (prompts of any kind, tool checks, other events,
    unparseable input, for any session), the question flag and the
    commit-approval flag of a session remain present. *)
Theorem flags_stay_until_a_session_boundary
    (homedir : jsstring) (enableLogging : bool) (inputs : list stdin)
    (s : storage) (sid : jsstring) :
  Forall (λ input, ¬ is_boundary input) inputs →
  let s' := run_all homedir enableLogging inputs s in
  (is_Some (question_flag homedir s sid) →
   is_Some (question_flag homedir s' sid))
  ∧ (is_Some (commit_flag homedir s sid) →
     is_Some (commit_flag homedir s' sid)).
Proof.
  intros Hinputs s'.
  assert (∀ file, is_Some (files s !! file) → is_Some (files s' !! file))
    as Hkeep; [|split; apply Hkeep].
  subst s'. revert s. unfold run_all.
  induction Hinputs as [|input inputs Hb _ IH]; intros s file Hfile;
    [done|].
  cbn [foldl]. apply IH. by apply run_keeps_files.
Qed.

Lemma flags_stay_until_a_session_boundary_witness :
  let s := store_of [(getQuestionPath home (js "s1"), js "what is x?")] in
  is_Some
    (question_flag home
       (run_all home true
          [Parsed (event "UserPromptSubmit" "s1" (Some (js "go on")));
           Parsed (tool_call "s1" "Write" None);
           Parsed (event "UserPromptSubmit" "s1" (Some (js "commit! now")));
           Unparseable (js "bad")] s)
       (js "s1")).
Proof.
  intros s.
  apply (flags_stay_until_a_session_boundary home true
           [Parsed (event "UserPromptSubmit" "s1" (Some (js "go on")));
            Parsed (tool_call "s1" "Write" None);
            Parsed (event "UserPromptSubmit" "s1" (Some (js "commit! now")));
            Unparseable (js "bad")] s (js "s1")).
  - repeat constructor;
      by (intros (? & [= <-] & [?|?]); discriminate)
      || by intros (? & ? & _).
  - eexists. by vm_compute.
Defined.

(** The marker files of two sessions are four different files. *)
Lemma suffix_clash (a b : jsstring) :
  a ++ js ".question.txt" ≠ b ++ js ".commit.txt".
Proof.
  intros H. apply (f_equal reverse) in H. rewrite !reverse_app in H.
  set (q := reverse (js ".question.txt")) in H. vm_compute in q.
  set (c := reverse (js ".commit.txt")) in H. vm_compute in c.
  subst q c. by simplify_eq/=.
Qed.

Lemma marker_paths_apart homedir a b :
  a ≠ b →
  getQuestionPath homedir a ≠ getQuestionPath homedir b
  ∧ getCommitPath homedir a ≠ getCommitPath homedir b
  ∧ getQuestionPath homedir a ≠ getCommitPath homedir b
  ∧ getCommitPath homedir a ≠ getQuestionPath homedir b.
Proof.
  intros Hab. unfold getQuestionPath, getCommitPath. cbn [path_join].
  split_and!; intros H; apply app_inv_head in H; injection H as H.
  - by apply app_inv_tail in H.
  - by apply app_inv_tail in H.
  - by apply suffix_clash in H.
  - symmetry in H. by apply suffix_clash in H.
Qed.

(** X9.  Sessions are kept apart: an invocation for one session changes
    neither flag of another session.  Both session ids are taken to be
    single path components, which is where joining them to the state
    directory keeps different ids on different files. *)
Theorem other_sessions_are_untouched
    (homedir : jsstring) (enableLogging : bool) (input : stdin) (s : storage)
    (sid : jsstring) :
  plain_name sid → plain_name (session_of_input input) →
  session_of_input input ≠ sid →
  let s' := store_after (main homedir enableLogging input s) in
  question_flag homedir s' sid = question_flag homedir s sid
  ∧ commit_flag homedir s' sid = commit_flag homedir s sid.
Proof.
  intros _ _ Hsid s'.
  destruct (marker_paths_apart homedir _ _ Hsid) as (Hqq & Hcc & Hqc & Hcq).
  split; apply run_files_elsewhere; congruence.
Qed.

Lemma other_sessions_are_untouched_witness :
  let s := store_of [(getQuestionPath home (js "s2"), js "what is x?");
                     (getCommitPath home (js "s2"), js "fix bug")] in
  let s' := store_after (main home true (Parsed (event "Stop" "s1" None)) s) in
  question_flag home s' (js "s2") = Some (js "what is x?")
  ∧ commit_flag home s' (js "s2") = Some (js "fix bug").
Proof.
  intros s s'.
  destruct (other_sessions_are_untouched home true
              (Parsed (event "Stop" "s1" None)) s (js "s2"))
    as [Hq Hc].
  - apply (bool_decide_unpack _). by vm_compute.
  - apply (bool_decide_unpack _). by vm_compute.
  - by vm_compute.
  - fold s' in Hq, Hc. rewrite Hq, Hc. by vm_compute.
Defined.






(** ** The git-commit recognizer, exactly *)

Section MatcherInversion.
Variable ci : bool.

Lemma run_cat_inv p q cur end_ :
  end_ ∈ run ci (Cat p q) cur →
  ∃ mid, mid ∈ run ci p cur ∧ end_ ∈ run ci q mid.
Proof.
  cbn. intros (mid & ? & ?)%list_elem_of_bind. eauto.
Qed.

Lemma run_wordb_inv cur end_ :
  end_ ∈ run ci WordB cur →
  end_ = cur ∧ xorb (word_left cur.1) (word_right cur.2) = true.
Proof.
  cbn. destruct (xorb _ _); [|by intros ?%elem_of_nil].
  by intros ->%list_elem_of_singleton.
Qed.

Lemma eat_inv_left w prev s cur :
  cur ∈ eat ci w prev s →
  ∃ m, s = m ++ cur.2 ∧ cur.1 = left_of prev m
       ∧ Forall2 (λ p c, same_char ci p c = true) w m.
Proof.
  revert prev s. induction w as [|p w IH]; intros prev s Hin.
  - cbn in Hin. apply list_elem_of_singleton in Hin as ->.
    exists []. by split_and!.
  - destruct s as [|c s]; cbn in Hin; [by apply elem_of_nil in Hin|].
    destruct (same_char ci p c) eqn:Hpc; [|by apply elem_of_nil in Hin].
    apply IH in Hin as (m & -> & Hleft & Hm).
    exists (c :: m). split_and!; [done|done|by constructor].
Qed.

Lemma star_inv cs prev s cur :
  cur ∈ star ci cs prev s →
  ∃ m, s = m ++ cur.2 ∧ cur.1 = left_of prev m
       ∧ Forall (λ c, in_set ci cs c = true) m.
Proof.
  revert prev. induction s as [|c s IH]; intros prev Hin.
  - cbn in Hin. apply list_elem_of_singleton in Hin as ->.
    exists []. by split_and!.
  - cbn in Hin. destruct (in_set ci cs c) eqn:Hc.
    + apply elem_of_app in Hin as [Hin|Hin].
      * apply IH in Hin as (m & Hs & Hleft & Hm).
        exists (c :: m). split_and!; [by rewrite Hs at 1|done|by constructor].
      * apply list_elem_of_singleton in Hin as ->.
        exists []. by split_and!.
    + apply list_elem_of_singleton in Hin as ->.
      exists []. by split_and!.
Qed.

Lemma plus_inv cs cur end_ :
  end_ ∈ run ci (Plus cs) cur →
  ∃ m, cur.2 = m ++ end_.2 ∧ end_.1 = left_of cur.1 m ∧ m ≠ []
       ∧ Forall (λ c, in_set ci cs c = true) m.
Proof.
  destruct cur as [prev [|c s]]; cbn; [by intros ?%elem_of_nil|].
  destruct (in_set ci cs c) eqn:Hc; [|by intros ?%elem_of_nil].
  intros (m & Hs & Hleft & Hm)%star_inv.
  exists (c :: m). split_and!; [by rewrite Hs at 1|done|done|by constructor].
Qed.

(** Where the search finds a match, the pattern matches. *)
Lemma search_inv p before prev s found :
  search ci p before prev s = Some found →
  ∃ pre s' end_,
    s = pre ++ s' ∧ end_ ∈ run ci p (left_of prev pre, s').
Proof.
  revert before prev. induction s as [|c s IH]; intros before prev;
    cbn [search]; destruct (run ci p (prev, _)) as [|[q rest] l] eqn:Hrun.
  - done.
  - intros _. exists [], [], (q, rest). split; [done|].
    cbn. rewrite Hrun. apply elem_of_cons. by left.
  - intros (pre & s' & end_ & -> & Hend)%IH.
    by exists (c :: pre), s', end_.
  - intros _. exists [], (c :: s), (q, rest). split; [done|].
    cbn. rewrite Hrun. apply elem_of_cons. by left.
Qed.
End MatcherInversion.

Lemma test_inv re s :
  test re s = true →
  ∃ pre s' end_,
    s = pre ++ s'
    ∧ end_ ∈ run (ignoreCase re) (source re) (left_of None pre, s').
Proof.
  unfold test, exec.
  destruct (search _ _ _ _ _) as [found|] eqn:H; [|done].
  intros _. by eapply search_inv.
Qed.

Lemma xorb_left_false (a : bool) : xorb a true = true → a = false.
Proof. by destruct a. Qed.

Lemma xorb_right_false (b : bool) : xorb true b = true → b = false.
Proof. by destruct b. Qed.

Lemma any_char_inv (m : jsstring) :
  Forall (λ c, in_set false AnyChar c = true) m → one_line m.
Proof.
  intros H. eapply Forall_impl; [exact H|].
  cbn. intros c Hc. by apply negb_true_iff.
Qed.

(** X12.  What the recognizer takes for a git commit, exactly: the command
    holds the word [git] (at the start, or after a character that is not a
    word character), then whitespace, then the word [commit] (at the end, or
    before a character that is not a word character), possibly with text
    that stays on one line and more whitespace between the two.  Nothing
    else is recognized, and all of this is: the words need not start the
    command nor belong to one git invocation. *)
Theorem git_commit_is_recognized_exactly (cmd : jsstring) :
  isGitCommit cmd = true ↔
  ∃ pre ws mid rest,
    cmd = pre ++ git_word ++ ws ++ mid ++ commit_word ++ rest
    ∧ begins_word pre ∧ ws ≠ [] ∧ all_space ws ∧ ends_word rest
    ∧ (mid = []
       ∨ ∃ text ws2, mid = text ++ ws2 ∧ one_line text
                     ∧ ws2 ≠ [] ∧ all_space ws2).
Proof.
  split.
  - unfold isGitCommit, gitCommitPatterns. cbn [existsb].
    rewrite !orb_true_iff.
    intros [H|[H|H]]; [| |done];
      apply test_inv in H as (pre & s' & end_ & -> & H);
      cbn [source ignoreCase] in H.
    + apply run_cat_inv in H as (c0 & [-> Hb0]%run_wordb_inv & H).
      apply run_cat_inv in H as (c1 & Hgit & H).
      apply eat_inv_left in Hgit as (m & Hs & _ & <-%same_chars_exact).
      apply run_cat_inv in H as (c2 & (ws & Hc1 & _ & Hne & Hws)%plus_inv & H).
      apply run_cat_inv in H as (c3 & Hcommit & [-> He]%run_wordb_inv).
      apply eat_inv_left in Hcommit
          as (m & Hc2 & Hleft & <-%same_chars_exact).
      cbn in Hs, Hb0. rewrite Hs in Hb0. rewrite Hs, Hc1, Hc2.
      exists pre, ws, [], c3.2. split_and!; try done.
      * apply xorb_left_false, Hb0.
      * rewrite Hleft in He. apply xorb_right_false, He.
      * by left.
    + apply run_cat_inv in H as (c0 & [-> Hb0]%run_wordb_inv & H).
      apply run_cat_inv in H as (c1 & Hgit & H).
      apply eat_inv_left in Hgit as (m & Hs & _ & <-%same_chars_exact).
      apply run_cat_inv in H as (c2 & (ws & Hc1 & _ & Hne & Hws)%plus_inv & H).
      apply run_cat_inv in H as (c3 & Hany & H).
      apply star_inv in Hany as (text & Hc2 & _ & Htext%any_char_inv).
      apply run_cat_inv in H
          as (c4 & (ws2 & Hc3 & _ & Hne2 & Hws2)%plus_inv & H).
      apply run_cat_inv in H as (c5 & Hcommit & [-> He]%run_wordb_inv).
      apply eat_inv_left in Hcommit
          as (m & Hc4 & Hleft & <-%same_chars_exact).
      cbn in Hs, Hb0, Hc2. rewrite Hs in Hb0.
      rewrite Hs, Hc1, Hc2, Hc3, Hc4.
      exists pre, ws, (text ++ ws2), c5.2. split_and!; try done.
      * by rewrite <- !app_assoc.
      * apply xorb_left_false, Hb0.
      * rewrite Hleft in He. apply xorb_right_false, He.
      * right. by exists text, ws2.
  - intros (pre & ws & mid & rest & -> & Hpre & Hne & Hws & Hrest
            & [->|(text & ws2 & -> & Htext & Hne2 & Hws2)]).
    + by apply isGitCommit_bare.
    + rewrite <- !app_assoc. by apply isGitCommit_flags.
Qed.

(** ** What the handler does to the storage as a whole *)

Section Preservation.
Context (R : storage → storage → Prop) `{!Reflexive R, !Transitive R}.

Lemma preserves_unchanged {A} (m : js_m A) :
  (∀ p, store (m p).2 = store p) → preserves R m.
Proof. intros H p. by rewrite H. Qed.

Lemma preserves_bind {A B} (m : js_m B) (f : B → js_m A) :
  preserves R m → (∀ b, preserves R (f b)) → preserves R (m ≫= f).
Proof.
  intros Hm Hf p. specialize (Hm p). unfold mbind, js_bind.
  destruct (m p) as [[b|e|code] p']; cbn in *; [|done..].
  by etrans; [|apply Hf].
Qed.

Lemma preserves_try_catch {A} (body : js_m A) handler :
  preserves R body → (∀ e, preserves R (handler e)) →
  preserves R (try_catch body handler).
Proof.
  intros Hm Hh p. specialize (Hm p). unfold try_catch.
  destruct (body p) as [[a|e|code] p']; cbn in *; [done| |done].
  by etrans; [|apply Hh].
Qed.

Lemma preserves_fileExists file : preserves R (fileExists file).
Proof.
  apply preserves_unchanged. intros p.
  unfold fileExists, try_catch, mbind, js_bind, fs_access.
  by destruct (files (store p) !! file).
Qed.

Lemma preserves_prompt_replace prompt re :
  preserves R (prompt_replace prompt re).
Proof. apply preserves_unchanged. by destruct prompt. Qed.
End Preservation.

Ltac preserves_same :=
  apply preserves_unchanged; [apply _ ..|done].

Ltac preserves_step :=
  cbv beta;
  lazymatch goal with
  | |- preserves _ (mbind _ _) =>
      apply preserves_bind; [apply _ ..| |intros ?]
  | |- preserves _ (try_catch _ _) =>
      apply preserves_try_catch; [apply _ ..| |intros ?]
  | |- preserves _ (if ?c then _ else _) => destruct c
  | |- preserves _ (fileExists _) => apply preserves_fileExists; apply _
  | |- preserves _ (prompt_replace _ _) =>
      apply preserves_prompt_replace; apply _
  | |- preserves _ (mret _) => preserves_same
  | |- preserves _ (throw _) => preserves_same
  | |- preserves _ (process_exit _) => preserves_same
  | |- preserves _ (console_log _) => preserves_same
  | |- preserves _ (console_error _) => preserves_same
  | |- preserves _ _ => solve [auto]
  end.

Ltac preserves_side := first [done | apply _].

Section HandlersPreserve.
Context (R : storage → storage → Prop) `{!Reflexive R, !Transitive R}.
Variable homedir : jsstring.
Variable enableLogging : bool.
Variable sid : jsstring.

(** The handlers that only read the marker files. *)
Hypothesis Hlog :
  ∀ entry, preserves R (writeLog homedir enableLogging sid entry).

Lemma preserves_onError message :
  preserves R (onError homedir enableLogging sid message).
Proof. unfold onError. repeat preserves_step. Qed.

Lemma preserves_onOtherEvent :
  preserves R (onOtherEvent homedir enableLogging sid).
Proof. unfold onOtherEvent. repeat preserves_step. Qed.

Lemma preserves_onPreToolUse d :
  preserves R (onPreToolUse homedir enableLogging sid d).
Proof. unfold onPreToolUse. repeat preserves_step. Qed.

Lemma preserves_plain_prompt d :
  isQuestionPrefix (prompt d) = false →
  isCommitPrefix (prompt d) = false →
  preserves R (onUserPromptSubmit homedir enableLogging sid d).
Proof.
  intros Q1 Q2. unfold onUserPromptSubmit. rewrite Q1, Q2.
  repeat preserves_step.
Qed.

(** The handlers that write or delete them. *)
Hypothesis Hcreate :
  ∀ file content, preserves R (createMarkerFile homedir file content).
Hypothesis Hdelete : ∀ file, preserves R (deleteMarkerFile file).

Lemma preserves_onUserPromptSubmit d :
  preserves R (onUserPromptSubmit homedir enableLogging sid d).
Proof. unfold onUserPromptSubmit. repeat preserves_step. Qed.

Lemma preserves_onSessionBoundary :
  preserves R (onSessionBoundary homedir enableLogging sid).
Proof. unfold onSessionBoundary, cleanupSession. repeat preserves_step. Qed.
End HandlersPreserve.

Lemma store_after_main homedir enableLogging input s :
  store_after (main homedir enableLogging input s)
  = store (handleHook homedir enableLogging input (Process s [] [])).2.
Proof.
  unfold main. by destruct (handleHook _ _ _ _) as [[?|?|?] p].
Qed.

Lemma preserves_handleHook (R : storage → storage → Prop)
    `{!Reflexive R, !Transitive R} homedir enableLogging input :
  (∀ entry,
     preserves R
       (writeLog homedir enableLogging (session_of_input input) entry)) →
  (∀ file content, preserves R (createMarkerFile homedir file content)) →
  (∀ file, preserves R (deleteMarkerFile file)) →
  preserves R (handleHook homedir enableLogging input).
Proof.
  intros Hlog Hcreate Hdelete.
  destruct input as [message|d]; cbn [session_of_input] in Hlog;
    unfold handleHook.
  { by apply preserves_onError. }
  preserves_step; [|by apply preserves_onError].
  preserves_step; [done|].
  repeat preserves_step.
  - by apply preserves_onUserPromptSubmit.
  - by apply preserves_onPreToolUse.
  - by apply preserves_onSessionBoundary.
  - by apply preserves_onOtherEvent.
Qed.

#[local] Instance appends_to_refl target : Reflexive (appends_to target).
Proof. intros s. split; [done|]. exists []. by rewrite app_nil_r. Qed.

#[local] Instance appends_to_trans target : Transitive (appends_to target).
Proof.
  intros s1 s2 s3 [H12 [l12 E12]] [H23 [l23 E23]]. split.
  - intros file Hfile. by rewrite H23, H12.
  - exists (l12 ++ l23). by rewrite E23, E12, app_assoc.
Qed.

#[local] Instance same_logs_refl : Reflexive same_logs.
Proof. by intros s. Qed.

#[local] Instance same_logs_trans : Transitive same_logs.
Proof. intros s1 s2 s3 H12 H23. unfold same_logs in *. congruence. Qed.



Lemma writeLog_off homedir sid entry p :
  writeLog homedir false sid entry p = (Normal (), p).
Proof. done. Qed.


Lemma createMarkerFile_logs homedir file content p :
  logs (store (createMarkerFile homedir file content p).2) = logs (store p).
Proof. done. Qed.

Lemma deleteMarkerFile_logs file p :
  logs (store (deleteMarkerFile file p).2) = logs (store p).
Proof.
  unfold deleteMarkerFile, try_catch, fs_unlink.
  by destruct (files (store p) !! file).
Qed.


(** X14.  Without [-log] no log is written: after any invocation the logs
    are what they were. *)
Theorem nothing_is_logged_without_the_log_flag
    (homedir : jsstring) (input : stdin) (s : storage) :
  logs (store_after (main homedir false input s)) = logs s.
Proof.
  rewrite store_after_main.
  refine (preserves_handleHook same_logs homedir false input
            _ _ _ (Process s [] [])).
  - intros entry p. by rewrite writeLog_off.
  - intros file content p. apply createMarkerFile_logs.
  - intros file p. apply deleteMarkerFile_logs.
Qed.




(** X16.  Without [-log], an invocation that can change no flag writes
    nothing at all: a tool check, a plain prompt, any other event and
    unparseable input leave the storage as it was (no marker file, no
    directory and no log is created, changed or removed). *)
Theorem checks_are_read_only_without_the_log_flag
    (homedir : jsstring) (input : stdin) (s : storage) :
  ¬ is_marked_prompt input → ¬ is_boundary input →
  store_after (main homedir false input s) = s.
Proof.
  intros Hm Hb. rewrite store_after_main.
  assert (∀ sid entry, preserves (=) (writeLog homedir false sid entry))
    as Hlog by (intros sid entry p; by rewrite writeLog_off).
  assert (preserves (=) (handleHook homedir false input)) as H;
    [|symmetry; apply (H (Process s [] []))].
  destruct input as [message|d]; unfold handleHook.
  { apply preserves_onError; preserves_side. }
  preserves_step; [|apply preserves_onError; preserves_side].
  preserves_step; [done|].
  destruct (is_event d "UserPromptSubmit") eqn:E1.
  { apply is_event_true in E1.
    assert (isQuestionPrefix (prompt d) = false) as Q1.
    { destruct (isQuestionPrefix (prompt d)) eqn:Q; [|done].
      destruct Hm. exists d. by eauto. }
    assert (isCommitPrefix (prompt d) = false) as Q2.
    { destruct (isCommitPrefix (prompt d)) eqn:Q; [|done].
      destruct Hm. exists d. by eauto. }
    apply preserves_plain_prompt; preserves_side. }
  destruct (is_event d "PreToolUse") eqn:E2.
  { apply preserves_onPreToolUse; preserves_side. }
  destruct (is_event d "Stop") eqn:E3.
  { apply is_event_true in E3. destruct Hb. exists d. by eauto. }
  destruct (is_event d "SessionStart") eqn:E4.
  { apply is_event_true in E4. destruct Hb. exists d. by eauto. }
  apply preserves_onOtherEvent; preserves_side.
Qed.

Lemma checks_are_read_only_without_the_log_flag_witness :
  store_after
    (main home false
       (Parsed (tool_call "s1" "Bash" (Some (js "git commit -m x"))))
       (store_of [])) = store_of [].
Proof.
  apply checks_are_read_only_without_the_log_flag.
  - intros (? & [= <-] & ? & _). discriminate.
  - intros (? & [= <-] & [?|?]); discriminate.
Defined.

(** ** The marker-file helpers *)





(** ** How the events compose *)




(** X19.  A session boundary makes the session fresh.  After a
    session-end or session-start event of a session, a tool call of that
    session is refused in one case only: the tool is [Bash] and its command
    is a git commit.  Every other tool is allowed again, whatever question
    was pending before, and a commit needs a new approval, whatever
    approval was given before. *)
Theorem after_a_boundary_the_session_is_fresh
    (homedir : jsstring) (enableLogging : bool) (b t : hook_data)
    (s : storage) :
  is_boundary_of (session_of t) b →
  hook_event_name t = Some (js "PreToolUse") →
  let s' := store_after (main homedir enableLogging (Parsed b) s) in
  let r := main homedir enableLogging (Parsed t) s' in
  (exit_code r = 2 ↔
   toolName_of t = Some (js "Bash")
   ∧ ∃ cmd, command_of (toolParams_of t) = Some cmd ∧ isGitCommit cmd = true)
  ∧ (exit_code r ≠ 2 → exit_code r = 0 ∧ printed r = [EmptyObject]).
Proof.
  intros [Hb Hsid] Ht s' r.
  pose proof (run_boundary homedir enableLogging b s Hb) as Hr.
  apply files_of_result in Hr. fold s' in Hr. rewrite Hsid in Hr.
  assert (commit_flag homedir s' (session_of t) = None) as Hc.
  { unfold commit_flag. rewrite Hr. apply lookup_delete_eq. }
  assert (question_flag homedir s' (session_of t) = None) as Hq.
  { unfold question_flag. rewrite Hr.
    apply lookup_delete_None. right. apply lookup_delete_eq. }
  destruct (run_PreToolUse_decision homedir enableLogging t s' Ht)
    as [[[[? HQ] _] _]|[[(_ & Hbash & Hcmd & _) Hres]|(_ & HnC & Hres)]];
    [congruence|..];
    apply result_of_eq in Hres as (Hcode & _ & Hout & _);
    fold r in Hcode, Hout; rewrite Hcode, Hout.
  - split; [by split|done].
  - split; [|done]. split; [done|].
    intros [Hbash Hcmd]. destruct HnC. by split_and!.
Qed.

Lemma after_a_boundary_the_session_is_fresh_witness :
  let s := store_of [(getQuestionPath home (js "s1"), js "what is x?");
                     (getCommitPath home (js "s1"), js "fix bug")] in
  let s' := store_after (main home true (Parsed (event "Stop" "s1" None)) s) in
  exit_code (main home true (Parsed (tool_call "s1" "Write" None)) s') = 0
  ∧ exit_code
      (main home true
         (Parsed (tool_call "s1" "Bash" (Some (js "git commit -m x")))) s')
    = 2.
Proof.
  intros s s'. split.
  - apply (after_a_boundary_the_session_is_fresh home true
             (event "Stop" "s1" None) (tool_call "s1" "Write" None) s).
    + split; [left|]; reflexivity.
    + reflexivity.
    + intros H.
      apply (after_a_boundary_the_session_is_fresh home true
               (event "Stop" "s1" None) (tool_call "s1" "Write" None) s)
        in H as [? _]; [discriminate|split; [left|]; reflexivity
                       |reflexivity].
  - apply (after_a_boundary_the_session_is_fresh home true
             (event "Stop" "s1" None)
             (tool_call "s1" "Bash" (Some (js "git commit -m x"))) s).
    + split; [left|]; reflexivity.
    + reflexivity.
    + split; [reflexivity|]. eexists. split; reflexivity.
Defined.

Lemma run_prompt_files homedir enableLogging d s :
  hook_event_name d = Some (js "UserPromptSubmit") →
  ∃ t, files (store_after (main homedir enableLogging (Parsed d) s))
       = if isQuestionPrefix (prompt d)
         then <[getQuestionPath homedir (session_of d) := t]> (files s)
         else if isCommitPrefix (prompt d)
              then <[getCommitPath homedir (session_of d) := t]> (files s)
              else files s.
Proof.
  intros Hev.
  destruct (isQuestionPrefix (prompt d)) eqn:Q1.
  { apply question_prefix_prompt in Q1 as (p & rest & Hp & Hq).
    eexists. eapply files_of_result. by eapply run_question. }
  destruct (isCommitPrefix (prompt d)) eqn:Q2.
  { apply commit_prefix_prompt in Q2 as (p & rest & Hp & Hc).
    eexists. eapply files_of_result. by eapply run_commit. }
  exists []. eapply files_of_result. by eapply run_plain_prompt.
Qed.

(** X20.  A flag appears with its own marker only.  When the question
    flag of the session is absent before an event and present after it, the
    event was a prompt that matches the question convention; when the
    commit-approval flag is absent before and present after, the event was a
    prompt that matches the commit-approval convention.  No other event,
    and no other prompt, sets a flag of its session. *)
Theorem a_flag_appears_with_its_marker_only
    (homedir : jsstring) (enableLogging : bool) (d : hook_data) (s : storage) :
  let s' := store_after (main homedir enableLogging (Parsed d) s) in
  let sid := session_of d in
  (question_flag homedir s sid = None →
   is_Some (question_flag homedir s' sid) →
   hook_event_name d = Some (js "UserPromptSubmit")
   ∧ isQuestionPrefix (prompt d) = true)
  ∧ (commit_flag homedir s sid = None →
     is_Some (commit_flag homedir s' sid) →
     hook_event_name d = Some (js "UserPromptSubmit")
     ∧ isCommitPrefix (prompt d) = true).
Proof.
  intros s' sid. unfold question_flag, commit_flag.
  pose proof (marker_paths_differ homedir sid) as Hqc.
  destruct (run_files homedir enableLogging (Parsed d) s)
    as [(Hf & _)|[((d' & [= <-] & Hev & _) & _)|(_ & Hf)]];
    fold s' in Hf || idtac.
  - rewrite Hf. split; intros -> [? ?]; done.
  - destruct (run_prompt_files homedir enableLogging d s Hev) as [t Hf].
    fold s' sid in Hf. rewrite Hf.
    destruct (isQuestionPrefix (prompt d)) eqn:Q1.
    { split; [done|]. rewrite lookup_insert_ne by done.
      by intros -> [? ?]. }
    destruct (isCommitPrefix (prompt d)) eqn:Q2.
    { split; [|done]. rewrite lookup_insert_ne by done.
      by intros -> [? ?]. }
    split; intros -> [? ?]; done.
  - cbn [session_of_input] in Hf. fold sid in Hf. rewrite Hf. split.
    + intros _ [? H]. apply lookup_delete_Some in H as (_ & H).
      by rewrite lookup_delete_eq in H.
    + intros _ [? H]. by rewrite lookup_delete_eq in H.
Qed.

(** ** What the log says *)

Section LogLogic.
Variable homedir : jsstring.
Variable sid : jsstring.
Implicit Types (p : process) (f : gmap (list N) (list N)).
Implicit Types (err : list json_out) (l : list jsstring).

Local Abbreviation target := (getLogPath homedir sid).








End LogLogic.












